(** * momentmap-server: the real-time relay, in two variants

    The repository holds two complete variants of the relay:
    - [src/server.js]            (module [ServerJs]): registry keyed by socket
      id, server-stamped bubbles, bounded room history, periodic sweep;
    - [src/unnamed/part_000]     (module [Part000]): registry keyed by the
      client's user id, bubbles stored as received, friend chats, no sweep.

    Every socket handler is embedded as a function
    [state -> state * list emission]: the process-wide collections
    ([onlineUsers], [allBubbles], [chatrooms], ...) are threaded explicitly
    and the Socket.IO emissions of the handler are returned in the order in
    which the code performs them.  Readings of the environment ([Date.now()],
    [Math.random()], the formatted wall clock) are arguments of the handler,
    one argument per call in the source.

    Numbers are integers ([Z]): timestamps are milliseconds, durations are
    seconds.  Payload fields are taken to be present and of the type the
    handlers use them at. *)

From stdpp Require Import gmap strings list fin_maps pretty.
From Stdlib Require Import ZArith Lia Ascii.

Local Open Scope Z_scope.

(** ** Data shared by the two variants *)

(** A bubble as it travels in [publishBubble] payloads and sits in
    [allBubbles].  [payload] stands for the fields no handler inspects
    (body, location, ...). *)
Record bubble := Bubble {
  bubble_id : string;
  title : string;
  author : string;
  payload : string;
  duration : Z;
  isPrivate : bool;
  createdAt : Z
}.

(** The [userData] payload of [userJoin]. *)
Record profile := Profile {
  user_id : string;
  nickname : string;
  avatar : string
}.

(** Who receives an emission: [io.emit], [io.to(name).emit] and
    [socket.emit].  Socket.IO addresses a single connection through the room
    that carries the connection's own id, so [io.to(socketId)] is a [ToRoom]
    whose name is a socket id. *)
Inductive audience :=
| ToAll
| ToRoom (name : string)
| ToSocket (sid : string).

Definition withId (i : string) (b : bubble) : bubble :=
  Bubble i (title b) (author b) (payload b) (duration b) (isPrivate b) (createdAt b).

Definition withCreatedAt (t : Z) (b : bubble) : bubble :=
  Bubble (bubble_id b) (title b) (author b) (payload b) (duration b) (isPrivate b) t.

(** [Array.prototype.findIndex]: the first index whose element satisfies
    [p]; JavaScript's [-1] is [None]. *)
Fixpoint findIndex {A} (p : A -> bool) (l : list A) : option nat :=
  match l with
  | [] => None
  | x :: rest => if p x then Some O else S <$> findIndex p rest
  end.

(** [arr.splice(index, 1)]. *)
Definition splice1 {A} (index : nat) (l : list A) : list A :=
  take index l ++ drop (S index) l.

(** [arr.shift()] as far as the array is concerned. *)
Definition shift {A} (l : list A) : list A := tail l.

(** The closure armed by [setTimeout] in [publishBubble]: it captures the
    bubble's id; [delay] is the argument [duration * 1000]. *)
Record timer := Timer { timer_bubble : string; delay : Z }.

(** ** Variant 1: src/server.js *)

Module ServerJs.

Record user := User {
  userData : profile;
  socketId : string;
  joinTime : Z
}.

(** A chatroom message record: [{nickname, content, time}]. *)
Record message := Message {
  msg_nickname : string;
  msg_content : string;
  msg_time : string
}.

(** A private message record: [{from, nickname, content, time}]. *)
Record privateMsg := PrivateMsg {
  pm_from : string;
  pm_nickname : string;
  pm_content : string;
  pm_time : string
}.

Record room := Room {
  room_id : string;
  users : gset string;
  messages : list message
}.

(** [chatrooms] is a JavaScript [Map]; [disconnect] walks it with [forEach],
    in insertion order, so it is kept as an insertion-ordered association
    list. *)
Record state := State {
  onlineUsers : gmap string user;
  allBubbles : list bubble;
  chatrooms : list (string * room);
  privateChats : gmap string (list privateMsg);
  timers : list timer
}.

Definition init : state := State ∅ [] [] ∅ [].

Inductive event :=
| onlineCount (n : nat)
| initialBubbles (bs : list bubble)
| newBubble (b : bubble)
| bubbleExpired (bid : string)
| chatroomHistory (ms : list message)
| chatroomUserCount (n : nat)
| chatroomMessageEv (m : message)
| privateMessageEv (m : privateMsg).

Definition emission : Type := audience * event.

(** *** Map operations on [chatrooms] *)

Fixpoint rooms_get (k : string) (rs : list (string * room)) : option room :=
  match rs with
  | [] => None
  | (k', r) :: rest => if String.eqb k k' then Some r else rooms_get k rest
  end.

(** Mutation of the room object stored under [k]. *)
Fixpoint rooms_alter (f : room -> room) (k : string) (rs : list (string * room))
  : list (string * room) :=
  match rs with
  | [] => []
  | (k', r) :: rest =>
      if String.eqb k k' then (k', f r) :: rest else (k', r) :: rooms_alter f k rest
  end.

(** [chatrooms.set(k, r)] for a key that [chatrooms.has(k)] just denied. *)
Definition rooms_add (k : string) (r : room) (rs : list (string * room))
  : list (string * room) := rs ++ [(k, r)].

Definition set_onlineUsers (m : gmap string user) (s : state) : state :=
  State m (allBubbles s) (chatrooms s) (privateChats s) (timers s).
Definition set_allBubbles (l : list bubble) (s : state) : state :=
  State (onlineUsers s) l (chatrooms s) (privateChats s) (timers s).
Definition set_chatrooms (rs : list (string * room)) (s : state) : state :=
  State (onlineUsers s) (allBubbles s) rs (privateChats s) (timers s).
Definition set_timers (ts : list timer) (s : state) : state :=
  State (onlineUsers s) (allBubbles s) (chatrooms s) (privateChats s) ts.

Definition set_users (u : gset string) (r : room) : room :=
  Room (room_id r) u (messages r).
Definition set_messages (ms : list message) (r : room) : room :=
  Room (room_id r) (users r) ms.

(** *** HTTP: GET /api/bubbles, and the same filter in [userJoin] *)

Definition isActive (now : Z) (b : bubble) : bool :=
  if isPrivate b then false
  else
    let expireTime := createdAt b + duration b * 1000 in
    now <? expireTime.

Definition apiBubbles (now : Z) (s : state) : list bubble :=
  List.filter (isActive now) (allBubbles s).

(** *** Socket handlers *)

Definition userJoin (sid : string) (data : profile) (tJoin now : Z) (s : state)
  : state * list emission :=
  let s1 := set_onlineUsers (<[sid := User data sid tJoin]> (onlineUsers s)) s in
  let activeBubbles := List.filter (isActive now) (allBubbles s1) in
  (s1, [(ToAll, onlineCount (size (onlineUsers s1)));
        (ToSocket sid, initialBubbles activeBubbles)]).

(** ['bubble_' + Date.now() + '_' + Math.random().toString(36).substr(2, 9)];
    [rnd] is the random suffix. *)
Definition mkId (t : Z) (rnd : string) : string :=
  "bubble_" +:+ pretty t +:+ "_" +:+ rnd.

Definition publishBubble (bubbleData : bubble) (tId : Z) (rnd : string)
    (tCreated : Z) (s : state) : state * list emission :=
  let bubble := withCreatedAt tCreated (withId (mkId tId rnd) bubbleData) in
  let s1 := set_allBubbles (allBubbles s ++ [bubble]) s in
  let s2 :=
    if negb (isPrivate bubble)
    then set_timers (timers s1 ++ [Timer (bubble_id bubble) (duration bubble * 1000)]) s1
    else s1 in
  (s2, [(ToAll, newBubble bubble)]).

(** The callback given to [setTimeout]. *)
Definition expireBubble (bid : string) (s : state) : state * list emission :=
  match findIndex (fun b => String.eqb (bubble_id b) bid) (allBubbles s) with
  | Some index =>
      (set_allBubbles (splice1 index (allBubbles s)) s, [(ToAll, bubbleExpired bid)])
  | None => (s, [])
  end.

Definition joinChatroom (sid : string) (chatroomId : string) (s : state)
  : state * list emission :=
  let rs1 :=
    match rooms_get chatroomId (chatrooms s) with
    | Some _ => chatrooms s
    | None => rooms_add chatroomId (Room chatroomId ∅ []) (chatrooms s)
    end in
  let rs2 := rooms_alter (fun r => set_users ({[sid]} ∪ users r) r) chatroomId rs1 in
  (* [chatrooms.get(chatroomId)], which the lines above made succeed *)
  let room := default (Room chatroomId {[sid]} []) (rooms_get chatroomId rs2) in
  (set_chatrooms rs2 s,
   [(ToSocket sid, chatroomHistory (messages room));
    (ToRoom chatroomId, chatroomUserCount (size (users room)))]).

(** [room.messages.push(msg)] followed by the single [shift] that the
    length test allows. *)
Definition pushBounded (msg : message) (ms : list message) : list message :=
  let ms1 := ms ++ [msg] in
  if (100 <? length ms1)%nat then shift ms1 else ms1.

Definition chatroomMessage (chatroomId message nick time : string) (s : state)
  : state * list emission :=
  match rooms_get chatroomId (chatrooms s) with
  | None => (s, [])
  | Some _ =>
      let msg := Message nick message time in
      (set_chatrooms
         (rooms_alter (fun r => set_messages (pushBounded msg (messages r)) r)
                      chatroomId (chatrooms s)) s,
       [(ToRoom chatroomId, chatroomMessageEv msg)])
  end.

Definition leaveChatroom (sid : string) (chatroomId : string) (s : state)
  : state * list emission :=
  match rooms_get chatroomId (chatrooms s) with
  | Some room =>
      let users' := users room ∖ {[sid]} in
      (set_chatrooms (rooms_alter (set_users users') chatroomId (chatrooms s)) s,
       [(ToRoom chatroomId, chatroomUserCount (size users'))])
  | None => (s, [])
  end.

Definition privateMessage (sid : string) (targetUserId message nick time : string)
    (s : state) : state * list emission :=
  let msg := PrivateMsg sid nick message time in
  (s, [(ToRoom targetUserId, privateMessageEv msg);
       (ToSocket sid, privateMessageEv msg)]).

(** [chatrooms.forEach] in [disconnect]: the rooms after the walk and the
    member counts emitted on the way. *)
Fixpoint disconnectRooms (sid : string) (rs : list (string * room))
  : list (string * room) * list emission :=
  match rs with
  | [] => ([], [])
  | (chatroomId, room) :: rest =>
      let '(rest', out) := disconnectRooms sid rest in
      if decide (sid ∈ users room)
      then
        let users' := users room ∖ {[sid]} in
        ((chatroomId, set_users users' room) :: rest',
         (ToRoom chatroomId, chatroomUserCount (size users')) :: out)
      else ((chatroomId, room) :: rest', out)
  end.

Definition disconnect (sid : string) (s : state) : state * list emission :=
  let '(rs, out) := disconnectRooms sid (chatrooms s) in
  let s1 := set_chatrooms rs s in
  let s2 := set_onlineUsers (delete sid (onlineUsers s1)) s1 in
  (s2, out ++ [(ToAll, onlineCount (size (onlineUsers s2)))]).

(** The [setInterval] callback. *)
Definition sweepKeeps (now : Z) (b : bubble) : bool :=
  if isPrivate b then true
  else
    let expireTime := createdAt b + duration b * 1000 in
    now <? expireTime.

Definition sweep (now : Z) (s : state) : state * list emission :=
  (set_allBubbles (List.filter (sweepKeeps now) (allBubbles s)) s, []).

(** *** The event loop *)

(** One turn of the event loop: a socket event with the environment readings
    its handler makes, the firing of the [k]-th pending expiry timer, or a
    tick of the sweep interval. *)
Inductive input :=
| UserJoin (sid : string) (data : profile) (tJoin now : Z)
| PublishBubble (sid : string) (bubbleData : bubble) (tId : Z) (rnd : string) (tCreated : Z)
| JoinChatroom (sid chatroomId : string)
| ChatroomMessage (sid chatroomId message nick time : string)
| LeaveChatroom (sid chatroomId : string)
| PrivateMessage (sid targetUserId message nick time : string)
| Disconnect (sid : string)
| TimerFires (k : nat)
| SweepTick (now : Z).

Definition step (i : input) (s : state) : state * list emission :=
  match i with
  | UserJoin sid data tJoin now => userJoin sid data tJoin now s
  | PublishBubble _ bubbleData tId rnd tCreated => publishBubble bubbleData tId rnd tCreated s
  | JoinChatroom sid chatroomId => joinChatroom sid chatroomId s
  | ChatroomMessage _ chatroomId message nick time =>
      chatroomMessage chatroomId message nick time s
  | LeaveChatroom sid chatroomId => leaveChatroom sid chatroomId s
  | PrivateMessage sid target message nick time =>
      privateMessage sid target message nick time s
  | Disconnect sid => disconnect sid s
  | TimerFires k =>
      match timers s !! k with
      | Some t => expireBubble (timer_bubble t) (set_timers (splice1 k (timers s)) s)
      | None => (s, [])
      end
  | SweepTick now => sweep now s
  end.

(** A run handles the inputs one after the other, each to completion, and
    collects the emissions in order. *)
Fixpoint run (ins : list input) (s : state) : state * list emission :=
  match ins with
  | [] => (s, [])
  | i :: rest =>
      let '(s1, out1) := step i s in
      let '(s2, out2) := run rest s1 in
      (s2, out1 ++ out2)
  end.

(** *** Observations on a run *)

(** The bubble ids announced as expired, to whatever audience. *)
Definition expiredIds (out : list emission) : list string :=
  omap (fun e => match snd e with bubbleExpired bid => Some bid | _ => None end) out.

(** The [(Date.now(), random suffix)] pairs drawn for identifiers, in order. *)
Definition draws (ins : list input) : list (Z * string) :=
  omap (fun i => match i with
                 | PublishBubble _ _ tId rnd _ => Some (tId, rnd)
                 | _ => None
                 end) ins.

(** The ids under which non-private bubbles are published. *)
Definition publicIds (ins : list input) : list string :=
  omap (fun i => match i with
                 | PublishBubble _ bubbleData tId rnd _ =>
                     if isPrivate bubbleData then None else Some (mkId tId rnd)
                 | _ => None
                 end) ins.

(** A client posting [posts] to one room, one [chatroomMessage] after the
    other; a post is [(message, nickname, time)]. *)
Definition postAll (sid chatroomId : string) (posts : list (string * string * string))
  : list input :=
  (fun p => ChatroomMessage sid chatroomId p.1.1 p.1.2 p.2) <$> posts.

Definition postedRecord (p : string * string * string) : message :=
  Message p.1.2 p.1.1 p.2.

(** No room holds more than 100 records. *)
Definition bounded (rs : list (string * room)) : Prop :=
  Forall (fun kr => (length (messages kr.2) <= 100)%nat) rs.

(** *** HTTP: GET / *)

(** [{message, online, bubbles}]. *)
Definition status (s : state) : string * nat * nat :=
  ("此刻地图服务器运行中", size (onlineUsers s), length (allBubbles s)).

(** The connections that announced themselves and did not disconnect since,
    read off the inputs. *)
Definition announcedFrom (acc : gset string) (ins : list input) : gset string :=
  foldl (fun acc i => match i with
                      | UserJoin sid _ _ _ => {[sid]} ∪ acc
                      | Disconnect sid => acc ∖ {[sid]}
                      | _ => acc
                      end) acc ins.

Definition announced (ins : list input) : gset string := announcedFrom ∅ ins.

(** The room ids named by [joinChatroom] events. *)
Definition joinedRooms (ins : list input) : list string :=
  omap (fun i => match i with JoinChatroom _ chatroomId => Some chatroomId | _ => None end)
       ins.

(** The ids of the pending expiry timers. *)
Definition pendingIds (s : state) : list string := timer_bubble <$> timers s.

(** The room a turn of the event loop creates, if it creates one. *)
Definition createdRoom (i : input) (s : state) : list string :=
  match i with
  | JoinChatroom _ chatroomId =>
      match rooms_get chatroomId (chatrooms s) with
      | Some _ => []
      | None => [chatroomId]
      end
  | _ => []
  end.

End ServerJs.

(** ** Variant 2: src/unnamed/part_000 *)

Module Part000.

(** [onlineUsers] values: [{...userData, socketId}]. *)
Record user := User {
  userData : profile;
  socketId : string
}.

(** A chatroom message record: [{nickname, avatar, content, timestamp}]. *)
Record message := Message {
  msg_nickname : string;
  msg_avatar : string;
  msg_content : string;
  msg_timestamp : Z
}.

(** A friend message record:
    [{from, to, nickname, avatar, content, timestamp}]. *)
Record friendMsg := FriendMsg {
  fm_from : string;
  fm_to : string;
  fm_nickname : string;
  fm_avatar : string;
  fm_content : string;
  fm_timestamp : Z
}.

(** [{messages: [], members: []}]; [members] is an array of user ids. *)
Record chatroom := Chatroom {
  messages : list message;
  members : list string
}.

(** [socketUser] is the [userId] property that [userJoin] puts on the socket
    object: absent until the connection announces itself. *)
Record state := State {
  onlineUsers : gmap string user;
  allBubbles : list bubble;
  chatrooms : gmap string chatroom;
  friendChats : gmap string (list friendMsg);
  socketUser : gmap string string;
  timers : list timer
}.

Definition init : state := State ∅ [] ∅ ∅ ∅ [].

Inductive event :=
| onlineCount (n : nat)
| allBubblesEv (bs : list bubble)
| newBubble (b : bubble)
| bubbleExpired (bid : string)
| chatroomHistory (ms : list message)
| chatroomOnline (n : nat)
| chatroomMessageEv (m : message)
| friendMessageEv (m : friendMsg).

Definition emission : Type := audience * event.

Definition set_onlineUsers (m : gmap string user) (s : state) : state :=
  State m (allBubbles s) (chatrooms s) (friendChats s) (socketUser s) (timers s).
Definition set_allBubbles (l : list bubble) (s : state) : state :=
  State (onlineUsers s) l (chatrooms s) (friendChats s) (socketUser s) (timers s).
Definition set_chatrooms (rs : gmap string chatroom) (s : state) : state :=
  State (onlineUsers s) (allBubbles s) rs (friendChats s) (socketUser s) (timers s).
Definition set_friendChats (fc : gmap string (list friendMsg)) (s : state) : state :=
  State (onlineUsers s) (allBubbles s) (chatrooms s) fc (socketUser s) (timers s).
Definition set_socketUser (su : gmap string string) (s : state) : state :=
  State (onlineUsers s) (allBubbles s) (chatrooms s) (friendChats s) su (timers s).
Definition set_timers (ts : list timer) (s : state) : state :=
  State (onlineUsers s) (allBubbles s) (chatrooms s) (friendChats s) (socketUser s) ts.

(** [onlineUsers.get(socket.userId)]: nothing for a socket that never
    announced itself. *)
Definition currentUser (sid : string) (s : state) : option user :=
  socketUser s !! sid ≫= fun uid => onlineUsers s !! uid.

(** *** HTTP: GET /api/bubbles *)

Definition isValid (now : Z) (b : bubble) : bool :=
  if isPrivate b then true
  else now <? createdAt b + duration b * 1000.

Definition apiBubbles (now : Z) (s : state) : list bubble :=
  List.filter (isValid now) (allBubbles s).

(** *** Socket handlers *)

Definition userJoin (sid : string) (data : profile) (s : state)
  : state * list emission :=
  let s1 := set_onlineUsers (<[user_id data := User data sid]> (onlineUsers s)) s in
  let s2 := set_socketUser (<[sid := user_id data]> (socketUser s1)) s1 in
  (s2, [(ToAll, onlineCount (size (onlineUsers s2)));
        (ToSocket sid, allBubblesEv (allBubbles s2))]).

Definition publishBubble (bubbleData : bubble) (s : state) : state * list emission :=
  let s1 := set_allBubbles (allBubbles s ++ [bubbleData]) s in
  let s2 :=
    if negb (isPrivate bubbleData)
    then set_timers
           (timers s1 ++ [Timer (bubble_id bubbleData) (duration bubbleData * 1000)]) s1
    else s1 in
  (s2, [(ToAll, newBubble bubbleData)]).

(** The callback given to [setTimeout]. *)
Definition expireBubble (bid : string) (s : state) : state * list emission :=
  match findIndex (fun b => String.eqb (bubble_id b) bid) (allBubbles s) with
  | Some index =>
      (set_allBubbles (splice1 index (allBubbles s)) s, [(ToAll, bubbleExpired bid)])
  | None => (s, [])
  end.

(** [members.includes(x)] with [x = socket.userId], which may be undefined. *)
Definition includes (x : option string) (l : list string) : bool :=
  match x with
  | Some uid => bool_decide (uid ∈ l)
  | None => false
  end.

Definition joinChatroom (sid : string) (chatroomId : string) (s : state)
  : state * list emission :=
  let room := default (Chatroom [] []) (chatrooms s !! chatroomId) in
  let user := currentUser sid s in
  let room1 :=
    match user, socketUser s !! sid with
    | Some _, Some uid =>
        if negb (includes (Some uid) (members room))
        then Chatroom (messages room) (members room ++ [uid])
        else room
    | _, _ => room
    end in
  (set_chatrooms (<[chatroomId := room1]> (chatrooms s)) s,
   [(ToSocket sid, chatroomHistory (messages room1));
    (ToRoom chatroomId, chatroomOnline (length (members room1)))]).

Definition chatroomMessage (sid : string) (chatroomId message : string) (now : Z)
    (s : state) : state * list emission :=
  match currentUser sid s with
  | None => (s, [])
  | Some user =>
      let msgData :=
        Message (nickname (userData user)) (avatar (userData user)) message now in
      let s1 :=
        match chatrooms s !! chatroomId with
        | Some room =>
            set_chatrooms
              (<[chatroomId := Chatroom (messages room ++ [msgData]) (members room)]>
                 (chatrooms s)) s
        | None => s
        end in
      (s1, [(ToRoom chatroomId, chatroomMessageEv msgData)])
  end.

(** [members.indexOf(socket.userId)]. *)
Definition indexOf (x : option string) (l : list string) : option nat :=
  match x with
  | Some uid => findIndex (String.eqb uid) l
  | None => None
  end.

Definition leaveChatroom (sid : string) (chatroomId : string) (s : state)
  : state * list emission :=
  match chatrooms s !! chatroomId with
  | Some room =>
      let members' :=
        match indexOf (socketUser s !! sid) (members room) with
        | Some index => splice1 index (members room)
        | None => members room
        end in
      (set_chatrooms (<[chatroomId := Chatroom (messages room) members']> (chatrooms s)) s,
       [(ToRoom chatroomId, chatroomOnline (length members'))])
  | None => (s, [])
  end.

(** [[a, b].sort().join('_')]: the default sort compares the strings code
    unit by code unit. *)
Definition chatKey (a b : string) : string :=
  if String.leb a b then a +:+ "_" +:+ b else b +:+ "_" +:+ a.

Definition friendMessage (sid : string) (friendId message : string) (now : Z)
    (s : state) : state * list emission :=
  match currentUser sid s, socketUser s !! sid with
  | Some user, Some uid =>
      let key := chatKey uid friendId in
      let msgData :=
        FriendMsg uid friendId (nickname (userData user)) (avatar (userData user))
                  message now in
      let log := default [] (friendChats s !! key) in
      let s1 := set_friendChats (<[key := log ++ [msgData]]> (friendChats s)) s in
      match onlineUsers s !! friendId with
      | Some friend => (s1, [(ToRoom (socketId friend), friendMessageEv msgData)])
      | None => (s1, [])
      end
  | _, _ => (s, [])
  end.

(** [if (socket.userId)]: an absent or empty user id is falsy. *)
Definition truthy (x : option string) : bool :=
  match x with
  | Some uid => negb (String.eqb uid "")
  | None => false
  end.

Definition disconnect (sid : string) (s : state) : state * list emission :=
  let s1 :=
    match socketUser s !! sid with
    | Some uid =>
        if truthy (Some uid) then set_onlineUsers (delete uid (onlineUsers s)) s else s
    | None => s
    end in
  (s1, [(ToAll, onlineCount (size (onlineUsers s1)))]).

(** *** The event loop *)

Inductive input :=
| UserJoin (sid : string) (data : profile)
| PublishBubble (sid : string) (bubbleData : bubble)
| JoinChatroom (sid chatroomId : string)
| ChatroomMessage (sid chatroomId message : string) (now : Z)
| LeaveChatroom (sid chatroomId : string)
| FriendMessage (sid friendId message : string) (now : Z)
| Disconnect (sid : string)
| TimerFires (k : nat).

Definition step (i : input) (s : state) : state * list emission :=
  match i with
  | UserJoin sid data => userJoin sid data s
  | PublishBubble _ bubbleData => publishBubble bubbleData s
  | JoinChatroom sid chatroomId => joinChatroom sid chatroomId s
  | ChatroomMessage sid chatroomId message now => chatroomMessage sid chatroomId message now s
  | LeaveChatroom sid chatroomId => leaveChatroom sid chatroomId s
  | FriendMessage sid friendId message now => friendMessage sid friendId message now s
  | Disconnect sid => disconnect sid s
  | TimerFires k =>
      match timers s !! k with
      | Some t => expireBubble (timer_bubble t) (set_timers (splice1 k (timers s)) s)
      | None => (s, [])
      end
  end.

Fixpoint run (ins : list input) (s : state) : state * list emission :=
  match ins with
  | [] => (s, [])
  | i :: rest =>
      let '(s1, out1) := step i s in
      let '(s2, out2) := run rest s1 in
      (s2, out1 ++ out2)
  end.

(** *** Observations on a run *)

Definition expiredIds (out : list emission) : list string :=
  omap (fun e => match snd e with bubbleExpired bid => Some bid | _ => None end) out.

(** The ids under which non-private bubbles are published; here they are the
    client's. *)
Definition publicIds (ins : list input) : list string :=
  omap (fun i => match i with
                 | PublishBubble _ bubbleData =>
                     if isPrivate bubbleData then None else Some (bubble_id bubbleData)
                 | _ => None
                 end) ins.

Definition isFriendMessage (i : input) : Prop :=
  match i with FriendMessage _ _ _ _ => True | _ => False end.

(** A client posting [posts] to one room; a post is [(message, timestamp)]. *)
Definition postAll (sid chatroomId : string) (posts : list (string * Z)) : list input :=
  (fun p => ChatroomMessage sid chatroomId p.1 p.2) <$> posts.

(** Two states that differ at most in the friend-chat logs. *)
Definition sameButLogs (s1 s2 : state) : Prop :=
  onlineUsers s1 = onlineUsers s2 /\ allBubbles s1 = allBubbles s2 /\
  chatrooms s1 = chatrooms s2 /\ socketUser s1 = socketUser s2 /\
  timers s1 = timers s2.

(** *** HTTP: GET / *)

(** [{status, message, onlineUsers, totalBubbles}]. *)
Definition status (s : state) : string * string * nat * nat :=
  ("ok", "此刻地图服务器运行中", size (onlineUsers s), length (allBubbles s)).

(** The ids of the pending expiry timers. *)
Definition pendingIds (s : state) : list string := timer_bubble <$> timers s.

(** The turns of a run that leave the registry record of [p] alone: none
    announces [p], none is the disconnect of a connection bound to [p]. *)
Fixpoint leavesRecord (p : string) (ins : list input) (s : state) : Prop :=
  match ins with
  | [] => True
  | i :: rest =>
      match i with
      | UserJoin _ data => user_id data <> p
      | Disconnect sid => socketUser s !! sid <> Some p
      | _ => True
      end /\ leavesRecord p rest (fst (step i s))
  end.


End Part000.

(** ** The validity window, in the words of the specification *)

(** The window of a non-private item is [[createdAt, createdAt + d*1000)];
    it has closed at [now] when [now] is at or past its right end.  Private
    items have no window to close. *)
Definition windowClosed (now : Z) (b : bubble) : Prop :=
  isPrivate b = false /\ createdAt b + duration b * 1000 <= now.

Definition inWindow (now : Z) (b : bubble) : Prop :=
  createdAt b <= now < createdAt b + duration b * 1000.

(** The [n] most recent records of a history. *)
Definition lastN {A} (n : nat) (l : list A) : list A := drop (length l - n) l.

(** The character [c] occurs in [s]. *)
Fixpoint occurs (c : Ascii.ascii) (s : string) : Prop :=
  match s with
  | EmptyString => False
  | String c' s' => c' = c \/ occurs c s'
  end.

#[global] Instance windowClosed_dec now b : Decision (windowClosed now b).
Proof. unfold windowClosed. apply _. Defined.


(** ** Sample data *)

Definition ann : profile := Profile "u1" "Ann" "ann.png".
Definition bob : profile := Profile "u2" "Bob" "bob.png".

(** A public bubble that lives for one second, a private one, and a public
    one whose [createdAt] lies five seconds after 1700000000000. *)
Definition rain : bubble := Bubble "b1" "rain" "u1" "" 1 false 0.
Definition diary : bubble := Bubble "b2" "diary" "u1" "" 60 true 0.
Definition early : bubble := Bubble "b3" "early" "u1" "" 60 false 1700000005000.

(** part_000 after Ann announced herself on connection [c1]. *)
Definition annOnline : Part000.state :=
  fst (Part000.run [Part000.UserJoin "c1" ann] Part000.init).

(** part_000 after Ann, on [c1], joined the rooms [r1] and [r2]. *)
Definition annInRooms : Part000.state :=
  fst (Part000.run [Part000.JoinChatroom "c1" "r1"; Part000.JoinChatroom "c1" "r2"]
         annOnline).

(** server.js after connection [c2] opened the room [r]; connection [c1]
    never announced itself. *)
Definition roomOpened : ServerJs.state :=
  fst (ServerJs.run [ServerJs.JoinChatroom "c2" "r"] ServerJs.init).

(** server.js with [c1] in the rooms [r1] and [r2] and [c2] in [r2] and [r3]. *)
Definition twoInRooms : ServerJs.state :=
  fst (ServerJs.run
         [ServerJs.UserJoin "c1" ann 0 0; ServerJs.UserJoin "c2" bob 0 0;
          ServerJs.JoinChatroom "c1" "r1"; ServerJs.JoinChatroom "c1" "r2";
          ServerJs.JoinChatroom "c2" "r2"; ServerJs.JoinChatroom "c2" "r3"]
         ServerJs.init).

Definition hundredAndOne : list (string * Z) := replicate 101 ("hi", 0).
Definition hundredAndOnePosts : list (string * string * string) :=
  replicate 101 ("hi", "Bob", "10:00").

Module S := ServerJs.
Module P := Part000.
(** * Properties *)

(** ** Arrays: [findIndex], [splice], [filter] *)

Section Arrays.
Context {A : Type}.
Implicit Types (p : A -> bool) (l : list A).

Lemma findIndex_None p l :
  findIndex p l = None <-> Forall (fun x => p x = false) l.
Proof.
  induction l as [|x l IH]; simpl.
  - split; [constructor | reflexivity].
  - destruct (p x) eqn:Hx.
    + split; [discriminate | inversion 1; congruence].
    + destruct (findIndex p l); simpl.
      * split; [discriminate |].
        inversion 1; subst. apply IH in H3. discriminate.
      * split; [| reflexivity]. intros _. constructor; [assumption | now apply IH].
Qed.

Lemma findIndex_Some p l i :
  findIndex p l = Some i ->
  exists x, l !! i = Some x /\ p x = true /\
            Forall (fun y => p y = false) (take i l).
Proof.
  revert i. induction l as [|x l IH]; simpl; intros i H; [discriminate |].
  destruct (p x) eqn:Hx.
  - injection H as <-. exists x. repeat split; [assumption | constructor].
  - destruct (findIndex p l) as [j|] eqn:Hj; simpl in H; [| discriminate].
    injection H as <-. destruct (IH j eq_refl) as (y & Hy & Hpy & Hbefore).
    exists y. repeat split; try assumption. simpl. now constructor.
Qed.

Lemma splice1_sublist i l : sublist (splice1 i l) l.
Proof.
  unfold splice1. rewrite <- (take_drop i l) at 3.
  apply sublist_app; [reflexivity |].
  replace (S i) with (i + 1)%nat by lia.
  rewrite <- (drop_drop l 1 i). apply sublist_drop.
Qed.


Lemma splice1_length i l x :
  l !! i = Some x -> S (length (splice1 i l)) = length l.
Proof.
  intros H. apply lookup_lt_Some in H. unfold splice1.
  rewrite length_app, length_take, length_drop. lia.
Qed.

Lemma splice1_ge i l : (length l <= i)%nat -> splice1 i l = l.
Proof.
  intros H. unfold splice1.
  rewrite take_ge by lia. rewrite drop_ge by lia. apply app_nil_r.
Qed.


Lemma filter_sublist p l : sublist (List.filter p l) l.
Proof.
  induction l as [|x l IH]; simpl; [constructor |].
  destruct (p x); now constructor.
Qed.

(** [List.filter] on a boolean test is stdpp's [filter] on the proposition
    the test decides. *)
Lemma filter_bool_prop p (P : A -> Prop) `{!forall x, Decision (P x)} l :
  (forall x, p x = true <-> P x) ->
  List.filter p l = filter P l.
Proof.
  intros Hp. induction l as [|x l IH]; simpl; [reflexivity |].
  rewrite filter_cons. destruct (p x) eqn:Hx.
  - rewrite decide_True by now apply Hp. now f_equal.
  - rewrite decide_False; [assumption |]. rewrite <- Hp. congruence.
Qed.
Lemma findIndex_app_first p l1 x l2 :
  Forall (fun y => p y = false) l1 -> p x = true ->
  findIndex p (l1 ++ x :: l2) = Some (length l1).
Proof.
  intros H1 Hx. induction H1 as [|y l1 Hy _ IH]; simpl.
  - now rewrite Hx.
  - now rewrite Hy, IH.
Qed.

Lemma splice1_middle l1 x l2 : splice1 (length l1) (l1 ++ x :: l2) = l1 ++ l2.
Proof.
  unfold splice1. rewrite take_app_length. f_equal.
  replace (l1 ++ x :: l2) with ((l1 ++ [x]) ++ l2) by now rewrite <- app_assoc.
  apply drop_app_length'. rewrite length_app. simpl. lia.
Qed.

Lemma splice1_Permutation i l x : l !! i = Some x -> l ≡ₚ x :: splice1 i l.
Proof.
  intros H. rewrite <- (take_drop_middle l i x H) at 1. unfold splice1.
  now rewrite Permutation_middle.
Qed.
End Arrays.

(** ** src/server.js *)

Module ServerJsFacts.
Import ServerJs.

Lemma sweepKeeps_spec now b : sweepKeeps now b = true <-> ~ windowClosed now b.
Proof.
  unfold sweepKeeps, windowClosed. destruct (isPrivate b); simpl.
  - split; [intros _ [H _]; discriminate | reflexivity].
  - rewrite Z.ltb_lt. split; [intros H [_ H']; lia | intros H].
    destruct (decide (now < createdAt b + duration b * 1000)); [assumption |].
    exfalso. apply H. split; [reflexivity | lia].
Qed.

Lemma isActive_spec now b :
  isActive now b = true <->
  isPrivate b = false /\ now < createdAt b + duration b * 1000.
Proof.
  unfold isActive. destruct (isPrivate b); simpl.
  - split; [discriminate | intros [H _]; discriminate].
  - rewrite Z.ltb_lt. tauto.
Qed.

Lemma sweep_filter now s :
  allBubbles (fst (sweep now s)) = filter (fun b => ~ windowClosed now b) (allBubbles s).
Proof. simpl. apply filter_bool_prop. intros b. apply sweepKeeps_spec. Qed.

Lemma sweep_elem_of now s b :
  b ∈ allBubbles (fst (sweep now s)) <-> b ∈ allBubbles s /\ ~ windowClosed now b.
Proof. rewrite sweep_filter, list_elem_of_filter. tauto. Qed.

(** *** The expiry timer *)

Lemma expireBubble_absent bid s :
  Forall (fun b => bubble_id b <> bid) (allBubbles s) ->
  expireBubble bid s = (s, []).
Proof.
  intros H. unfold expireBubble.
  assert (Hnone : findIndex (fun b => String.eqb (bubble_id b) bid) (allBubbles s) = None).
  { apply findIndex_None. eapply Forall_impl; [exact H |].
    intros b Hb. simpl in *. now apply String.eqb_neq. }
  now rewrite Hnone.
Qed.

Lemma expireBubble_present bid s b :
  b ∈ allBubbles s -> bubble_id b = bid ->
  exists index b0,
    allBubbles s !! index = Some b0 /\ bubble_id b0 = bid /\
    Forall (fun y => bubble_id y <> bid) (take index (allBubbles s)) /\
    expireBubble bid s =
      (set_allBubbles (splice1 index (allBubbles s)) s, [(ToAll, bubbleExpired bid)]).
Proof.
  intros Hb Hid. unfold expireBubble.
  destruct (findIndex _ (allBubbles s)) as [index|] eqn:Hfind.
  - apply findIndex_Some in Hfind as (b0 & Hlook & Hp & Hbefore).
    exists index, b0. repeat split; try assumption.
    + now apply String.eqb_eq.
    + eapply Forall_impl; [exact Hbefore |]. intros y Hy. simpl in Hy.
      now apply String.eqb_neq.
  - apply findIndex_None in Hfind. rewrite Forall_forall in Hfind.
    specialize (Hfind b Hb). simpl in Hfind.
    apply String.eqb_neq in Hfind. contradiction.
Qed.

(** With pairwise distinct ids in the store, the removal a timer performs
    leaves no item under that id: a second attempt finds nothing. *)
Lemma expireBubble_idempotent bid s :
  NoDup (bubble_id <$> allBubbles s) ->
  let s1 := fst (expireBubble bid s) in
  expireBubble bid s1 = (s1, []).
Proof.
  intros Hnd. simpl.
  assert (Hgone : Forall (fun b => bubble_id b <> bid)
                         (allBubbles (fst (expireBubble bid s)))).
  { unfold expireBubble.
    destruct (findIndex _ (allBubbles s)) as [index|] eqn:Hfind; simpl.
    - apply findIndex_Some in Hfind as (b0 & Hlook & Hp & _).
      apply String.eqb_eq in Hp.
      rewrite <- (take_drop_middle _ _ _ Hlook) in Hnd.
      rewrite fmap_app, fmap_cons in Hnd.
      apply NoDup_app in Hnd as (_ & Hdisj & Hnd).
      apply NoDup_cons in Hnd as [Hnotin _].
      unfold splice1. apply Forall_app. split; apply Forall_forall; intros y Hy Heq.
      + apply (Hdisj (bubble_id y)); [now apply list_elem_of_fmap_2 |].
        rewrite Heq, <- Hp. left.
      + apply Hnotin. rewrite Hp, <- Heq. now apply list_elem_of_fmap_2.
    - apply findIndex_None in Hfind.
      eapply Forall_impl; [exact Hfind |]. intros y Hy. simpl in Hy.
      now apply String.eqb_neq. }
  now apply expireBubble_absent.
Qed.

(** The sweep emits nothing, whatever it removes. *)
Lemma sweep_silent now s : snd (sweep now s) = [].
Proof. reflexivity. Qed.

Lemma sweep_removes_closed now s b :
  windowClosed now b -> b ∉ allBubbles (fst (sweep now s)).
Proof. intros Hc Hin. apply sweep_elem_of in Hin. tauto. Qed.


(** *** Server-generated identifiers *)

Lemma pretty_N_char_no_underscore x : pretty_N_char x <> "_"%char.
Proof. unfold pretty_N_char. repeat case_match; discriminate. Qed.

Lemma pretty_N_go_no_underscore x s :
  ~ occurs "_" s -> ~ occurs "_" (pretty_N_go x s).
Proof.
  revert s. induction (N.lt_wf_0 x) as [x _ IH]; intros s Hs.
  destruct (decide (x = 0)%N) as [->|Hx].
  - now rewrite pretty_N_go_0.
  - rewrite pretty_N_go_step by lia.
    apply IH; [apply N.div_lt; lia |].
    simpl. intros [Hc|Hc]; [| contradiction].
    now apply pretty_N_char_no_underscore in Hc.
Qed.

Lemma pretty_N_no_underscore (x : N) : ~ occurs "_" (pretty x).
Proof.
  unfold pretty, pretty_N. case_decide.
  - simpl. intros [Hc|[]]. discriminate.
  - apply pretty_N_go_no_underscore. simpl. tauto.
Qed.

Lemma pretty_Z_no_underscore (x : Z) : ~ occurs "_" (pretty x).
Proof.
  destruct x as [|p|p]; unfold pretty, pretty_Z.
  - simpl. intros [H|[]]. discriminate.
  - apply pretty_N_no_underscore.
  - simpl. intros [H|H]; [discriminate |].
    now apply (pretty_N_no_underscore (Npos p)).
Qed.

Lemma split_at_separator c s1 s2 r1 r2 :
  ~ occurs c s1 -> ~ occurs c s2 ->
  s1 +:+ String c r1 = s2 +:+ String c r2 -> s1 = s2 /\ r1 = r2.
Proof.
  revert s2. induction s1 as [|a s1 IH]; intros [|b s2] H1 H2 Heq; simpl in *.
  - now injection Heq.
  - injection Heq as Hc _. exfalso. apply H2. now left.
  - injection Heq as Hc _. exfalso. apply H1. now left.
  - injection Heq as -> Heq.
    destruct (IH s2) as [-> ->]; auto.
Qed.

(** Two identifiers coincide only when both the clock reading and the random
    suffix do. *)
Lemma mkId_inj t1 r1 t2 r2 : mkId t1 r1 = mkId t2 r2 -> t1 = t2 /\ r1 = r2.
Proof.
  unfold mkId. intros H. simpl in H.
  injection H as H.
  apply split_at_separator in H as [Ht Hr]; try apply pretty_Z_no_underscore.
  split; [now apply (inj pretty) | assumption].
Qed.

#[local] Instance mkId_pair_inj : Inj (=) (=) (fun d : Z * string => mkId d.1 d.2).
Proof.
  intros [t1 r1] [t2 r2] H. simpl in H. apply mkId_inj in H as [-> ->]. reflexivity.
Qed.


(** *** Runs *)


Lemma expiredIds_app out1 out2 :
  expiredIds (out1 ++ out2) = expiredIds out1 ++ expiredIds out2.
Proof. apply omap_app. Qed.

Lemma disconnectRooms_expired sid rs : expiredIds (snd (disconnectRooms sid rs)) = [].
Proof.
  induction rs as [|[k r] rs IH]; simpl; [reflexivity |].
  destruct (disconnectRooms sid rs) as [rest out]. simpl in IH.
  case_decide; simpl; assumption.
Qed.

Ltac destruct_input i :=
  destruct i as [sid data tJoin now|sid bubbleData tId rnd tCreated|sid chatroomId
                |sid chatroomId message nick time|sid chatroomId
                |sid target message nick time|sid|k|now].

Ltac handlers :=
  unfold step, userJoin, publishBubble, joinChatroom, chatroomMessage,
    leaveChatroom, privateMessage, disconnect, sweep, expireBubble in *.



Lemma publicIds_cons i ins : publicIds (i :: ins) = publicIds [i] ++ publicIds ins.
Proof. unfold publicIds. simpl. now destruct (match i with PublishBubble _ _ _ _ _ => _ | _ => _ end). Qed.




(** *** What stays in the store *)


Lemma expireBubble_sublist bid s :
  sublist (allBubbles (fst (expireBubble bid s))) (allBubbles s).
Proof.
  unfold expireBubble. case_match; simpl; [apply splice1_sublist | reflexivity].
Qed.



(** *** Identifiers in the store *)

Lemma draws_cons i ins : draws (i :: ins) = draws [i] ++ draws ins.
Proof. unfold draws. simpl. now destruct (match i with PublishBubble _ _ _ _ _ => _ | _ => _ end). Qed.

Lemma step_ids i s :
  sublist (bubble_id <$> allBubbles (fst (step i s)))
          ((bubble_id <$> allBubbles s) ++ ((fun d => mkId d.1 d.2) <$> draws [i])).
Proof.
  assert (Hsame : forall l : list string, sublist l (l ++ [])).
  { intros l. now rewrite app_nil_r. }
  destruct_input i; simpl; try apply Hsame.
  - unfold publishBubble. simpl.
    destruct (isPrivate bubbleData); simpl; now rewrite fmap_app.
  - unfold chatroomMessage. repeat case_match; apply Hsame.
  - unfold leaveChatroom. repeat case_match; apply Hsame.
  - unfold disconnect. destruct (disconnectRooms sid (chatrooms s)). apply Hsame.
  - rewrite app_nil_r. destruct (timers s !! k) as [t|]; [| reflexivity].
    apply fmap_sublist. apply (expireBubble_sublist _ (set_timers _ s)).
  - rewrite app_nil_r. apply fmap_sublist, filter_sublist.
Qed.

Lemma run_ids ins s :
  sublist (bubble_id <$> allBubbles (fst (run ins s)))
          ((bubble_id <$> allBubbles s) ++ ((fun d => mkId d.1 d.2) <$> draws ins)).
Proof.
  revert s. induction ins as [|i ins IH]; intros s.
  - simpl. now rewrite app_nil_r.
  - rewrite draws_cons, fmap_app, app_assoc. cbn [run].
    pose proof (step_ids i s) as Hstep.
    destruct (step i s) as [s1 out1]. specialize (IH s1).
    destruct (run ins s1) as [s2 out2]. cbn [fst snd] in *.
    etransitivity; [exact IH |]. now apply sublist_app.
Qed.

(** As long as no [(clock, random suffix)] pair is drawn twice, no two
    stored bubbles share their identifier. *)
Lemma run_ids_NoDup ins :
  NoDup (draws ins) -> NoDup (bubble_id <$> allBubbles (fst (run ins init))).
Proof.
  intros Hnd. eapply sublist_NoDup; [| apply (run_ids ins init)].
  simpl. now apply (NoDup_fmap_2 _).
Qed.


(** *** Room histories *)

Lemma lastN_short {A} n (l : list A) : (length l <= n)%nat -> lastN n l = l.
Proof. intros H. unfold lastN. now replace (length l - n)%nat with O by lia. Qed.

Lemma lastN_length {A} n (l : list A) : (length (lastN n l) <= n)%nat.
Proof. unfold lastN. rewrite length_drop. lia. Qed.

Lemma lastN_length_full {A} n (l : list A) :
  (n <= length l)%nat -> length (lastN n l) = n.
Proof. intros H. unfold lastN. rewrite length_drop. lia. Qed.

Lemma lastN_app_lastN {A} n (l k : list A) :
  lastN n (lastN n l ++ k) = lastN n (l ++ k).
Proof.
  destruct (decide (length l <= n)%nat) as [Hle|Hgt].
  - now rewrite (lastN_short n l).
  - pose proof (lastN_length_full n l ltac:(lia)) as Hfull.
    unfold lastN at 1 3. rewrite !length_app, Hfull.
    replace (n + length k - n)%nat with (length k) by lia.
    replace (length l + length k - n)%nat with ((length l - n) + length k)%nat by lia.
    rewrite <- (drop_drop (l ++ k)).
    rewrite (drop_app_le l k (length l - n)) by lia. reflexivity.
Qed.

Lemma pushBounded_lastN msg ms :
  (length ms <= 100)%nat -> pushBounded msg ms = lastN 100 (ms ++ [msg]).
Proof.
  intros Hlen. unfold pushBounded, lastN, shift.
  rewrite length_app. cbn [length].
  destruct (Nat.ltb_spec 100 (length ms + 1)) as [Hfull|Hroom].
  - replace (length ms + 1 - 100)%nat with 1%nat by lia.
    destruct ms; reflexivity.
  - now replace (length ms + 1 - 100)%nat with O by lia.
Qed.

Lemma pushBounded_length msg ms :
  (length ms <= 100)%nat -> (length (pushBounded msg ms) <= 100)%nat.
Proof. intros H. rewrite pushBounded_lastN by assumption. apply lastN_length. Qed.

(** A full history loses its oldest record, and only that one. *)
Lemma pushBounded_full msg ms :
  length ms = 100%nat -> pushBounded msg ms = drop 1 ms ++ [msg].
Proof.
  intros Hlen. unfold pushBounded, shift. rewrite length_app. cbn [length].
  destruct (Nat.ltb_spec 100 (length ms + 1)) as [_|Hroom]; [| lia].
  destruct ms; [discriminate | reflexivity].
Qed.

Lemma pushBounded_room msg ms :
  (length ms < 100)%nat -> pushBounded msg ms = ms ++ [msg].
Proof.
  intros Hlen. unfold pushBounded. rewrite length_app. cbn [length].
  destruct (Nat.ltb_spec 100 (length ms + 1)) as [Hfull|_]; [lia | reflexivity].
Qed.

Lemma rooms_get_alter_eq f k rs :
  rooms_get k (rooms_alter f k rs) = f <$> rooms_get k rs.
Proof.
  induction rs as [|[k' r] rs IH]; simpl; [reflexivity |].
  destruct (String.eqb k k') eqn:Hk; simpl; rewrite Hk; [reflexivity | exact IH].
Qed.

Lemma rooms_get_alter_ne f k k' rs :
  k <> k' -> rooms_get k' (rooms_alter f k rs) = rooms_get k' rs.
Proof.
  intros Hne. induction rs as [|[k0 r] rs IH]; simpl; [reflexivity |].
  destruct (String.eqb k k0) eqn:Hk; simpl.
  - apply String.eqb_eq in Hk as <-.
    assert (String.eqb k' k = false) as -> by (apply String.eqb_neq; congruence).
    reflexivity.
  - destruct (String.eqb k' k0); [reflexivity | exact IH].
Qed.

Lemma rooms_alter_Forall (P : string * room -> Prop) f k rs :
  (forall k0 r, P (k0, r) -> P (k0, f r)) ->
  Forall P rs -> Forall P (rooms_alter f k rs).
Proof.
  intros Hf. induction 1 as [|[k0 r] rs Hr Hrs IH]; simpl; [constructor |].
  destruct (String.eqb k k0); constructor; auto.
Qed.

Lemma rooms_get_elem_of k r rs : rooms_get k rs = Some r -> (k, r) ∈ rs.
Proof.
  induction rs as [|[k0 r0] rs IH]; simpl; [discriminate |].
  destruct (String.eqb k k0) eqn:Hk.
  - apply String.eqb_eq in Hk as <-. intros [= ->]. left.
  - intros H. right. auto.
Qed.

Lemma disconnectRooms_rooms sid rs :
  fst (disconnectRooms sid rs) =
  (fun kr => (kr.1, if decide (sid ∈ users kr.2)
                    then set_users (users kr.2 ∖ {[sid]}) kr.2 else kr.2)) <$> rs.
Proof.
  induction rs as [|[k r] rs IH]; simpl; [reflexivity |].
  destruct (disconnectRooms sid rs) as [rest out]. simpl in *.
  case_decide; simpl; now rewrite IH.
Qed.

Lemma disconnectRooms_out sid rs :
  snd (disconnectRooms sid rs) =
  (fun kr => (ToRoom kr.1, chatroomUserCount (size (users kr.2 ∖ {[sid]}))))
    <$> filter (fun kr => sid ∈ users kr.2) rs.
Proof.
  induction rs as [|[k r] rs IH]; simpl; [reflexivity |].
  destruct (disconnectRooms sid rs) as [rest out]. simpl in *.
  rewrite filter_cons. simpl. case_decide; simpl; now rewrite IH.
Qed.

Lemma step_bounded i s : bounded (chatrooms s) -> bounded (chatrooms (fst (step i s))).
Proof.
  unfold bounded. intros Hb. destruct_input i; simpl; try assumption.
  - unfold publishBubble. simpl. now destruct (isPrivate bubbleData).
  - unfold joinChatroom. simpl.
    apply rooms_alter_Forall; [auto |].
    destruct (rooms_get chatroomId (chatrooms s)); [assumption |].
    apply Forall_app. split; [assumption |].
    constructor; [simpl; lia | constructor].
  - unfold chatroomMessage. case_match; [| assumption]. simpl.
    apply rooms_alter_Forall; [| assumption].
    intros k0 r0 Hr. simpl in *. now apply pushBounded_length.
  - unfold leaveChatroom. case_match; [| assumption]. simpl.
    apply rooms_alter_Forall; [auto | assumption].
  - unfold disconnect.
    pose proof (disconnectRooms_rooms sid (chatrooms s)) as Hrs.
    destruct (disconnectRooms sid (chatrooms s)) as [rs out]. simpl in *. subst rs.
    apply Forall_fmap. eapply Forall_impl; [exact Hb |].
    intros [k0 r0] Hr. simpl in *. now case_decide.
  - destruct (timers s !! k); [| assumption].
    unfold expireBubble. now case_match.
Qed.

(** Whatever the clients send, no room ever holds more than 100 records. *)
Lemma run_bounded ins s :
  bounded (chatrooms s) -> bounded (chatrooms (fst (run ins s))).
Proof.
  revert s. induction ins as [|i ins IH]; intros s Hb; [assumption |].
  cbn [run]. pose proof (step_bounded i s Hb) as Hstep.
  destruct (step i s) as [s1 out1]. specialize (IH s1 Hstep).
  now destruct (run ins s1).
Qed.

Lemma chatroomMessage_room chatroomId message nick time s room :
  rooms_get chatroomId (chatrooms s) = Some room ->
  let msg := Message nick message time in
  let r := chatroomMessage chatroomId message nick time s in
  rooms_get chatroomId (chatrooms (fst r))
    = Some (set_messages (pushBounded msg (messages room)) room) /\
  (forall other, other <> chatroomId ->
     rooms_get other (chatrooms (fst r)) = rooms_get other (chatrooms s)) /\
  snd r = [(ToRoom chatroomId, chatroomMessageEv msg)].
Proof.
  intros Hget. unfold chatroomMessage. rewrite Hget. simpl.
  rewrite rooms_get_alter_eq, Hget. repeat split.
  intros other Hne. now apply rooms_get_alter_ne.
Qed.

(** Posting a sequence of messages to one room leaves the 100 most recent
    records of the old history followed by the new ones. *)
Lemma postAll_history sid chatroomId posts s room :
  rooms_get chatroomId (chatrooms s) = Some room ->
  (length (messages room) <= 100)%nat ->
  exists room',
    rooms_get chatroomId (chatrooms (fst (run (postAll sid chatroomId posts) s)))
      = Some room' /\
    users room' = users room /\
    messages room' = lastN 100 (messages room ++ (postedRecord <$> posts)).
Proof.
  revert s room. induction posts as [|[[message nick] time] posts IH];
    intros s room Hget Hlen.
  - exists room. simpl. rewrite app_nil_r, lastN_short by assumption. auto.
  - unfold postAll. rewrite fmap_cons. cbn [run step fst snd].
    destruct (chatroomMessage_room chatroomId message nick time s room Hget)
      as (Hget1 & _ & _).
    destruct (chatroomMessage chatroomId message nick time s) as [s1 out1].
    cbn [fst snd] in *.
    destruct (IH s1 _ Hget1) as (room' & Hget' & Husers & Hmsgs).
    { simpl. now apply pushBounded_length. }
    unfold postAll in Hget'.
    destruct (run _ s1) as [s2 out2]. cbn [fst snd] in *.
    exists room'. split; [assumption |]. split; [assumption |].
    rewrite Hmsgs. simpl. rewrite pushBounded_lastN by assumption.
    rewrite lastN_app_lastN, <- app_assoc. reflexivity.
Qed.

(** The room handler never consults the registry. *)
Lemma chatroomMessage_ignores_registry chatroomId message nick time reg s :
  chatroomMessage chatroomId message nick time (set_onlineUsers reg s) =
  (set_onlineUsers reg (fst (chatroomMessage chatroomId message nick time s)),
   snd (chatroomMessage chatroomId message nick time s)).
Proof. unfold chatroomMessage. simpl. now destruct (rooms_get chatroomId (chatrooms s)). Qed.


(** *** The snapshot *)

Lemma apiBubbles_elem_of now s b :
  b ∈ apiBubbles now s <->
  b ∈ allBubbles s /\ isPrivate b = false /\ now < createdAt b + duration b * 1000.
Proof.
  unfold apiBubbles.
  rewrite (filter_bool_prop (isActive now)
             (fun b => isPrivate b = false /\ now < createdAt b + duration b * 1000)
             (allBubbles s) (isActive_spec now)).
  rewrite list_elem_of_filter. tauto.
Qed.

(** *** Private publications and the public ids *)





End ServerJsFacts.

(** ** src/unnamed/part_000 *)

Module Part000Facts.
Import Part000.

Ltac destruct_input i :=
  destruct i as [sid data|sid bubbleData|sid chatroomId|sid chatroomId message now
                |sid chatroomId|sid friendId message now|sid|k].

Lemma isValid_spec now b :
  isValid now b = true <->
  isPrivate b = true \/ now < createdAt b + duration b * 1000.
Proof.
  unfold isValid. destruct (isPrivate b); simpl.
  - tauto.
  - rewrite Z.ltb_lt. split; [tauto | intros [H|H]; [discriminate | assumption]].
Qed.

(** *** The registry *)

Lemma userJoin_registry sid data s :
  onlineUsers (fst (userJoin sid data s)) = <[user_id data := User data sid]> (onlineUsers s) /\
  socketUser (fst (userJoin sid data s)) = <[sid := user_id data]> (socketUser s).
Proof. split; reflexivity. Qed.

Lemma friendMessage_unresolved sid friendId message now s :
  currentUser sid s = None -> friendMessage sid friendId message now s = (s, []).
Proof.
  intros H. unfold friendMessage. rewrite H. reflexivity.
Qed.

Lemma friendMessage_resolved sid friendId message now s uid user :
  socketUser s !! sid = Some uid -> onlineUsers s !! uid = Some user ->
  let msg := FriendMsg uid friendId (nickname (userData user)) (avatar (userData user))
                       message now in
  let r := friendMessage sid friendId message now s in
  snd r = match onlineUsers s !! friendId with
          | Some friend => [(ToRoom (socketId friend), friendMessageEv msg)]
          | None => []
          end /\
  friendChats (fst r) =
    <[chatKey uid friendId := default [] (friendChats s !! chatKey uid friendId) ++ [msg]]>
      (friendChats s) /\
  sameButLogs (fst r) s.
Proof.
  intros Hsock Huser. unfold friendMessage, currentUser, sameButLogs.
  rewrite Hsock. simpl. rewrite Huser.
  destruct (onlineUsers s !! friendId); simpl; repeat split.
Qed.

(** Direct messages leave the registry and the socket bindings alone. *)
Lemma friendMessages_registry dms s :
  Forall isFriendMessage dms ->
  onlineUsers (fst (run dms s)) = onlineUsers s /\
  socketUser (fst (run dms s)) = socketUser s.
Proof.
  intros Hdms. revert s. induction Hdms as [|i dms Hi _ IH]; intros s; [split; reflexivity |].
  destruct_input i; try contradiction. cbn [run step].
  assert (Hreg : onlineUsers (fst (friendMessage sid friendId message now s)) = onlineUsers s /\
                 socketUser (fst (friendMessage sid friendId message now s)) = socketUser s).
  { unfold friendMessage. repeat case_match; split; reflexivity. }
  destruct (friendMessage sid friendId message now s) as [s1 out1].
  specialize (IH s1). destruct (run dms s1) as [s2 out2]. cbn [fst snd] in *.
  destruct IH as [-> ->]. exact Hreg.
Qed.

(** *** Room messages *)

Lemma chatroomMessage_unresolved sid chatroomId message now s :
  currentUser sid s = None -> chatroomMessage sid chatroomId message now s = (s, []).
Proof. intros H. unfold chatroomMessage. now rewrite H. Qed.

Lemma chatroomMessage_resolved sid chatroomId message now s user :
  currentUser sid s = Some user ->
  let msg := Message (nickname (userData user)) (avatar (userData user)) message now in
  let r := chatroomMessage sid chatroomId message now s in
  snd r = [(ToRoom chatroomId, chatroomMessageEv msg)] /\
  chatrooms (fst r) !! chatroomId =
    (fun room => Chatroom (messages room ++ [msg]) (members room))
      <$> chatrooms s !! chatroomId /\
  (forall other, other <> chatroomId -> chatrooms (fst r) !! other = chatrooms s !! other) /\
  onlineUsers (fst r) = onlineUsers s /\ socketUser (fst r) = socketUser s.
Proof.
  intros H. unfold chatroomMessage. rewrite H. simpl.
  destruct (chatrooms s !! chatroomId) as [room|] eqn:Hroom; simpl.
  - rewrite lookup_insert_eq. repeat split.
    intros other Hne. now rewrite lookup_insert_ne.
  - rewrite Hroom. repeat split.
Qed.

(** Nothing is ever dropped from a history here: the room keeps the old
    records followed by all the new ones. *)
Lemma postAll_appends sid chatroomId posts s user room :
  currentUser sid s = Some user ->
  chatrooms s !! chatroomId = Some room ->
  exists room',
    chatrooms (fst (run (postAll sid chatroomId posts) s)) !! chatroomId = Some room' /\
    messages room' =
      messages room ++
      ((fun p => Message (nickname (userData user)) (avatar (userData user)) p.1 p.2)
         <$> posts).
Proof.
  revert s room. induction posts as [|[message now] posts IH]; intros s room Hu Hroom.
  - exists room. simpl. now rewrite app_nil_r.
  - unfold postAll. rewrite fmap_cons. cbn [run step fst snd].
    destruct (chatroomMessage_resolved sid chatroomId message now s user Hu)
      as (_ & Hget & _ & Hreg & Hsock).
    rewrite Hroom in Hget. simpl in Hget.
    assert (Hu1 : currentUser sid (fst (chatroomMessage sid chatroomId message now s))
                  = Some user).
    { unfold currentUser in *. now rewrite Hreg, Hsock. }
    destruct (chatroomMessage sid chatroomId message now s) as [s1 out1].
    cbn [fst snd] in *.
    destruct (IH s1 _ Hu1 Hget) as (room' & Hget' & Hmsgs).
    unfold postAll in Hget'. destruct (run _ s1) as [s2 out2]. cbn [fst snd] in *.
    exists room'. split; [assumption |]. rewrite Hmsgs. simpl.
    now rewrite <- app_assoc.
Qed.

(** *** Disconnect *)

Lemma disconnect_frame sid s :
  let r := disconnect sid s in
  chatrooms (fst r) = chatrooms s /\
  allBubbles (fst r) = allBubbles s /\
  friendChats (fst r) = friendChats s /\
  snd r = [(ToAll, onlineCount (size (onlineUsers (fst r))))].
Proof. unfold disconnect. repeat case_match; repeat split. Qed.


(** *** The expiry timer and the store *)

Ltac handlers :=
  unfold step, userJoin, publishBubble, joinChatroom, chatroomMessage,
    leaveChatroom, friendMessage, disconnect, expireBubble in *.

Lemma expire_absent bid s :
  Forall (fun b => bubble_id b <> bid) (allBubbles s) ->
  expireBubble bid s = (s, []).
Proof.
  intros H. unfold expireBubble.
  assert (Hnone : findIndex (fun b => String.eqb (bubble_id b) bid) (allBubbles s) = None).
  { apply findIndex_None. eapply Forall_impl; [exact H |].
    intros b Hb. simpl in *. now apply String.eqb_neq. }
  now rewrite Hnone.
Qed.











(** *** The friend-chat log is write-only *)

Lemma sameButLogs_refl s : sameButLogs s s.
Proof. repeat split. Qed.

Lemma step_log_blind i s1 s2 :
  sameButLogs s1 s2 ->
  snd (step i s1) = snd (step i s2) /\
  sameButLogs (fst (step i s1)) (fst (step i s2)).
Proof.
  intros (Hreg & Hb & Hrooms & Hsock & Htim).
  destruct_input i; unfold sameButLogs; handlers; unfold currentUser; simpl;
    rewrite ?Hreg, ?Hb, ?Hrooms, ?Hsock, ?Htim;
    repeat case_match; simpl; rewrite ?Hreg, ?Hb, ?Hrooms, ?Hsock, ?Htim;
    repeat split; try congruence.
Qed.

(** What the relay emits never depends on what the logs hold. *)
Lemma run_log_blind ins s1 s2 :
  sameButLogs s1 s2 -> snd (run ins s1) = snd (run ins s2).
Proof.
  revert s1 s2. induction ins as [|i ins IH]; intros s1 s2 Hs; [reflexivity |].
  cbn [run]. destruct (step_log_blind i s1 s2 Hs) as [Hout Hs'].
  destruct (step i s1) as [s1' o1]. destruct (step i s2) as [s2' o2].
  cbn [fst snd] in *. specialize (IH s1' s2' Hs').
  destruct (run ins s1') as [? o1']. destruct (run ins s2') as [? o2'].
  cbn [snd] in *. congruence.
Qed.


(** *** The snapshot *)

Lemma validBubbles_elem_of now s b :
  b ∈ apiBubbles now s <->
  b ∈ allBubbles s /\
  (isPrivate b = true \/ now < createdAt b + duration b * 1000).
Proof.
  unfold apiBubbles.
  rewrite (filter_bool_prop (isValid now)
             (fun b => isPrivate b = true \/ now < createdAt b + duration b * 1000)
             (allBubbles s) (isValid_spec now)).
  rewrite list_elem_of_filter. tauto.
Qed.



End Part000Facts.

(** * The claims of the specification *)

Import ServerJsFacts.

(** C10.  One run of the periodic sweep keeps, in their original order and
    multiplicity, exactly the items whose window has not closed at the
    observation time: what it removes are the non-private items with
    [createdAt + duration*1000 <= now] and nothing else; private items and
    still-valid items stay.  The registry, the room directory, the
    conversation logs and the pending timers are unchanged, and nothing is
    emitted. *)
Theorem sweep_removes_exactly_closed (now : Z) (s : S.state) :
  let s' := fst (S.sweep now s) in
  S.allBubbles s' = filter (fun b => ~ windowClosed now b) (S.allBubbles s) /\
  sublist (S.allBubbles s') (S.allBubbles s) /\
  (forall b, b ∈ S.allBubbles s' <-> b ∈ S.allBubbles s /\ ~ windowClosed now b) /\
  (forall b, b ∈ S.allBubbles s -> isPrivate b = true -> b ∈ S.allBubbles s') /\
  (forall b, b ∈ S.allBubbles s -> now < createdAt b + duration b * 1000 ->
             b ∈ S.allBubbles s') /\
  S.onlineUsers s' = S.onlineUsers s /\
  S.chatrooms s' = S.chatrooms s /\
  S.privateChats s' = S.privateChats s /\
  S.timers s' = S.timers s /\
  snd (S.sweep now s) = [].
Proof.
  simpl.
  pose proof (sweep_filter now s) as Heq. simpl in Heq.
  pose proof (sweep_elem_of now s) as Hin. simpl in Hin.
  split; [exact Heq |]. split; [apply filter_sublist |]. split; [exact Hin |].
  split.
  { intros b Hb Hp. apply Hin. split; [assumption |].
    intros [Hnp _]. congruence. }
  split.
  { intros b Hb Hlt. apply Hin. split; [assumption |].
    intros [_ Hle]. lia. }
  repeat split.
Qed.

(** The sweep at time 2000 over a store that holds the private [diary] and
    the expired [rain] keeps the former. *)
Lemma sweep_removes_exactly_closed_witness :
  diary ∈ S.allBubbles (fst (S.sweep 2000 (S.set_allBubbles [rain; diary] S.init))).
Proof.
  apply (sweep_removes_exactly_closed 2000 (S.set_allBubbles [rain; diary] S.init)).
  - simpl. right. left.
  - reflexivity.
Defined.

(** C1.  The timer removes an expired bubble and announces it once, and a
    second attempt finds nothing; the sweep removes it without announcing
    anything.  When the sweep comes first, the bubble published by
    [publishBubble] disappears and no [bubbleExpired] is ever emitted for it:
    the timer that fires afterwards finds the store empty. *)
Theorem sweep_before_timer_announces_nothing :
  let published := [S.PublishBubble "c1" rain 1000 "k3x9" 1000] in
  let timerFirst := S.run (published ++ [S.TimerFires 0; S.SweepTick 2000]) S.init in
  let sweepFirst := S.run (published ++ [S.SweepTick 2000; S.TimerFires 0]) S.init in
  S.expiredIds (snd timerFirst) = ["bubble_1000_k3x9"] /\
  S.allBubbles (fst timerFirst) = [] /\
  S.expiredIds (snd sweepFirst) = [] /\
  S.allBubbles (fst sweepFirst) = [] /\
  S.timers (fst sweepFirst) = [].
Proof. vm_compute. repeat split. Qed.

(** C2.  Evaluated on part_000.  Ann announces herself on [c1] and again
    on [c2], and Bob on [c3]: the second announcement leaves the presence
    count at 1, and Bob's direct message to Ann is emitted to [c2] and to
    nobody else.  Then [c1], the connection that was superseded,
    disconnects: its [disconnect] deletes the record kept under Ann's id,
    although that record is bound to [c2], which is still connected and
    still carries her id; the presence count that is broadcast drops to 1,
    and the same direct message to Ann is now emitted to nobody. *)
Theorem superseded_disconnect_unbinds_user :
  let s2 := fst (P.run [P.UserJoin "c1" ann; P.UserJoin "c2" ann; P.UserJoin "c3" bob]
                   P.init) in
  let s3 := fst (P.disconnect "c1" s2) in
  snd (P.run [P.UserJoin "c1" ann; P.UserJoin "c2" ann] P.init)
  = [(ToAll, P.onlineCount 1); (ToSocket "c1", P.allBubblesEv []);
     (ToAll, P.onlineCount 1); (ToSocket "c2", P.allBubblesEv [])] /\
  P.socketId <$> P.onlineUsers s2 !! "u1" = Some "c2" /\
  snd (P.friendMessage "c3" "u1" "hello" 5 s2)
  = [(ToRoom "c2", P.friendMessageEv (P.FriendMsg "u2" "u1" "Bob" "bob.png" "hello" 5))] /\
  snd (P.disconnect "c1" s2) = [(ToAll, P.onlineCount 1)] /\
  P.socketUser s3 !! "c2" = Some "u1" /\
  P.onlineUsers s3 !! "u1" = None /\
  snd (P.friendMessage "c3" "u1" "hello" 5 s3) = [].
Proof. vm_compute. repeat split. Qed.




(** C4, as the code has it.  A stored non-private bubble is in the snapshot
    at [now] exactly when [now < createdAt + duration*1000], in both
    variants: present strictly before the right end of its window, absent at
    it and after it.  No left end is tested; for [createdAt <= now] this is
    membership of [now] in the window [[createdAt, createdAt + d*1000)]. *)
Theorem snapshot_iff_before_expiry (now : Z) (b : bubble) :
  isPrivate b = false ->
  (forall s, b ∈ S.allBubbles s ->
     (b ∈ S.apiBubbles now s <-> now < createdAt b + duration b * 1000)) /\
  (forall s, b ∈ P.allBubbles s ->
     (b ∈ P.apiBubbles now s <-> now < createdAt b + duration b * 1000)) /\
  (createdAt b <= now ->
   (forall s, b ∈ S.allBubbles s -> (b ∈ S.apiBubbles now s <-> inWindow now b)) /\
   (forall s, b ∈ P.allBubbles s -> (b ∈ P.apiBubbles now s <-> inWindow now b))).
Proof.
  intros Hnp.
  assert (HS : forall s, b ∈ S.allBubbles s ->
             (b ∈ S.apiBubbles now s <-> now < createdAt b + duration b * 1000)).
  { intros s Hb. rewrite apiBubbles_elem_of. tauto. }
  assert (HP : forall s, b ∈ P.allBubbles s ->
             (b ∈ P.apiBubbles now s <-> now < createdAt b + duration b * 1000)).
  { intros s Hb. rewrite Part000Facts.validBubbles_elem_of.
    split; [intros [_ [H|H]]; [congruence | assumption] | auto]. }
  split; [exact HS |]. split; [exact HP |].
  intros Hle. unfold inWindow.
  split; intros s Hb; [rewrite (HS s Hb) | rewrite (HP s Hb)]; lia.
Qed.

(** [rain], created at 0 for one second, is in the snapshot at 999 and not
    at 1000. *)
Lemma snapshot_iff_before_expiry_witness :
  isPrivate rain = false /\
  rain ∈ S.apiBubbles 999 (S.set_allBubbles [rain] S.init) /\
  rain ∉ S.apiBubbles 1000 (S.set_allBubbles [rain] S.init).
Proof.
  assert (Hin : rain ∈ S.allBubbles (S.set_allBubbles [rain] S.init)) by (simpl; left).
  split; [reflexivity |]. split.
  - apply (proj1 (snapshot_iff_before_expiry 999 rain eq_refl) _ Hin). reflexivity.
  - intros H.
    apply (proj1 (snapshot_iff_before_expiry 1000 rain eq_refl) _ Hin) in H.
    discriminate H.
Defined.

(** C4 as stated fails where the creation time is later than the query
    time: part_000 stores the client's [createdAt], and the bubble is in the
    snapshot five seconds before its window opens. *)
Lemma snapshot_before_window_opens :
  let s := fst (P.run [P.PublishBubble "c1" early] P.init) in
  early ∈ P.allBubbles s /\ isPrivate early = false /\
  early ∈ P.apiBubbles 1700000000000 s /\
  ~ (createdAt early <= 1700000000000 < createdAt early + duration early * 1000).
Proof.
  split; [vm_compute; left |]. split; [reflexivity |]. split.
  - vm_compute. left.
  - simpl. lia.
Qed.

(** C5, as the code has it.  In server.js the stored bubble carries the
    identifier the server builds from its clock and a random suffix and the
    creation time the server reads, whatever identifier and creation time
    the payload had; it is appended to the store and broadcast to all.  Two
    identifiers coincide only if clock reading and random suffix both do, so
    the stored identifiers are pairwise distinct as long as no such pair is
    drawn twice.  In part_000 the payload is stored and broadcast as it
    came, with the client's identifier and creation time. *)
Theorem publish_assigns_and_broadcasts :
  (forall data tId rnd tCreated s,
     let r := S.publishBubble data tId rnd tCreated s in
     exists b,
       S.allBubbles (fst r) = S.allBubbles s ++ [b] /\
       snd r = [(ToAll, S.newBubble b)] /\
       bubble_id b = S.mkId tId rnd /\ createdAt b = tCreated /\
       title b = title data /\ author b = author data /\ payload b = payload data /\
       duration b = duration data /\ isPrivate b = isPrivate data) /\
  (forall data clientId clientCreatedAt tId rnd tCreated s,
     S.publishBubble (withCreatedAt clientCreatedAt (withId clientId data)) tId rnd tCreated s
     = S.publishBubble data tId rnd tCreated s) /\
  (forall t1 r1 t2 r2, S.mkId t1 r1 = S.mkId t2 r2 -> t1 = t2 /\ r1 = r2) /\
  (forall ins,
     NoDup (S.draws ins) -> NoDup (bubble_id <$> S.allBubbles (fst (S.run ins S.init)))) /\
  (forall data s,
     let r := P.publishBubble data s in
     P.allBubbles (fst r) = P.allBubbles s ++ [data] /\
     snd r = [(ToAll, P.newBubble data)]).
Proof.
  split; [| split; [| split; [| split]]].
  - intros data tId rnd tCreated s r.
    exists (withCreatedAt tCreated (withId (S.mkId tId rnd) data)).
    subst r. unfold S.publishBubble. simpl.
    destruct (isPrivate data); simpl; repeat split.
  - reflexivity.
  - exact mkId_inj.
  - exact run_ids_NoDup.
  - intros data s r. subst r. unfold P.publishBubble.
    destruct (isPrivate data); simpl; split; reflexivity.
Qed.

(** Two publications in the same millisecond with different random
    suffixes leave two distinct identifiers in the store. *)
Lemma publish_assigns_and_broadcasts_witness :
  NoDup (bubble_id <$> S.allBubbles
           (fst (S.run [S.PublishBubble "c1" rain 1000 "k3x9" 1000;
                        S.PublishBubble "c2" rain 1000 "p07q" 1000] S.init))).
Proof.
  apply (proj1 (proj2 (proj2 (proj2 publish_assigns_and_broadcasts)))).
  vm_compute. apply NoDup_cons. split.
  - intros H. apply elem_of_cons in H as [H|H]; [discriminate | inversion H].
  - apply NoDup_cons. split; [intros H; inversion H | apply NoDup_nil_2].
Defined.

(** C5 as stated fails on part_000: the identifier and the creation time of
    the stored bubble are the ones the client sent. *)
Lemma client_chooses_id_in_part000 :
  let r := P.publishBubble early P.init in
  P.allBubbles (fst r) = [early] /\
  bubble_id early = "b3" /\ createdAt early = 1700000005000 /\
  P.allBubbles (fst (P.publishBubble (withId "other" early) P.init))
    = [withId "other" early].
Proof. vm_compute. repeat split. Qed.

(** C6, as the code has it.  In server.js no room ever holds more than 100
    records, whatever the clients send; a message posted to a room whose
    history is full evicts the oldest record and only that one, otherwise
    nothing is evicted; posting a sequence of messages to a room leaves the
    100 most recent records, and 101 messages posted to an empty history
    leave all but the first.  In part_000 nothing is evicted: the history is
    the old one followed by every posted record. *)
Theorem room_history_bound_and_fifo :
  (forall ins, S.bounded (S.chatrooms (fst (S.run ins S.init)))) /\
  (forall chatroomId message nick time s room,
     S.rooms_get chatroomId (S.chatrooms s) = Some room ->
     (length (S.messages room) <= 100)%nat ->
     let msg := S.Message nick message time in
     exists room',
       S.rooms_get chatroomId
         (S.chatrooms (fst (S.chatroomMessage chatroomId message nick time s)))
         = Some room' /\
       (length (S.messages room') <= 100)%nat /\
       (length (S.messages room) = 100%nat ->
        S.messages room' = drop 1 (S.messages room) ++ [msg]) /\
       ((length (S.messages room) < 100)%nat ->
        S.messages room' = S.messages room ++ [msg])) /\
  (forall sid chatroomId posts s room,
     S.rooms_get chatroomId (S.chatrooms s) = Some room ->
     (length (S.messages room) <= 100)%nat ->
     exists room',
       S.rooms_get chatroomId (S.chatrooms (fst (S.run (S.postAll sid chatroomId posts) s)))
         = Some room' /\
       S.messages room' = lastN 100 (S.messages room ++ (S.postedRecord <$> posts)) /\
       (S.messages room = [] -> length posts = 101%nat ->
        S.messages room' = drop 1 (S.postedRecord <$> posts))) /\
  (forall sid chatroomId posts s user room,
     P.currentUser sid s = Some user ->
     P.chatrooms s !! chatroomId = Some room ->
     exists room',
       P.chatrooms (fst (P.run (P.postAll sid chatroomId posts) s)) !! chatroomId
         = Some room' /\
       P.messages room' =
         P.messages room ++
         ((fun p => P.Message (nickname (P.userData user)) (avatar (P.userData user)) p.1 p.2)
            <$> posts)).
Proof.
  split; [| split; [| split]].
  - intros ins. apply run_bounded. constructor.
  - intros chatroomId message nick time s room Hget Hlen msg.
    destruct (chatroomMessage_room chatroomId message nick time s room Hget) as (Hget' & _).
    eexists. split; [exact Hget' |]. simpl.
    split; [now apply pushBounded_length |].
    split; [apply pushBounded_full | apply pushBounded_room].
  - intros sid chatroomId posts s room Hget Hlen.
    destruct (postAll_history sid chatroomId posts s room Hget Hlen)
      as (room' & Hget' & _ & Hmsgs).
    exists room'. split; [assumption |]. split; [assumption |].
    intros Hempty Hposts. rewrite Hmsgs, Hempty. simpl.
    unfold lastN. rewrite length_fmap, Hposts. reflexivity.
  - intros sid chatroomId posts s user room Hu Hroom.
    exact (Part000Facts.postAll_appends sid chatroomId posts s user room Hu Hroom).
Qed.

(** 101 messages posted to server.js's freshly opened room [r] leave the
    last 100 of them. *)
Lemma room_history_bound_and_fifo_witness :
  exists room',
    S.rooms_get "r"
      (S.chatrooms (fst (S.run (S.postAll "c2" "r" hundredAndOnePosts) roomOpened)))
      = Some room' /\
    S.messages room' = drop 1 (S.postedRecord <$> hundredAndOnePosts).
Proof.
  destruct (proj1 (proj2 (proj2 room_history_bound_and_fifo))
              "c2" "r" hundredAndOnePosts roomOpened (S.Room "r" {["c2"]} []))
    as (room' & Hget & _ & Hdrop).
  - vm_compute. reflexivity.
  - simpl. lia.
  - exists room'. split; [exact Hget |]. apply Hdrop; reflexivity.
Defined.

(** C6 as stated fails on part_000: after 101 messages the room holds 101
    records. *)
Lemma part000_history_exceeds_100 :
  let s := fst (P.run (P.JoinChatroom "c1" "r" :: P.postAll "c1" "r" hundredAndOne)
                  annOnline) in
  length <$> (P.messages <$> P.chatrooms s !! "r") = Some 101%nat.
Proof. vm_compute. reflexivity. Qed.

(** C7, as the code has it.  In part_000 a direct message from a connection
    whose identity does not resolve is dropped; from a resolved sender the
    record is appended to the log of the pair and, if the target resolves in
    the registry, emitted to the target's bound connection and to nobody
    else, the sender's connection included; if the target does not resolve
    nothing is emitted.  Nothing but the log changes, and no emission of any
    later run depends on what the logs hold, so a logged record is never
    sent again.  In server.js the record is addressed to the target
    identifier without any look-up, and the same record goes back to the
    sender's connection; nothing is stored. *)
Theorem direct_message_delivery :
  (forall sid friendId message now s,
     P.currentUser sid s = None ->
     P.friendMessage sid friendId message now s = (s, [])) /\
  (forall sid friendId message now s uid sender,
     P.socketUser s !! sid = Some uid ->
     P.onlineUsers s !! uid = Some sender ->
     let msg := P.FriendMsg uid friendId (nickname (P.userData sender))
                  (avatar (P.userData sender)) message now in
     let r := P.friendMessage sid friendId message now s in
     (forall friend, P.onlineUsers s !! friendId = Some friend ->
        snd r = [(ToRoom (P.socketId friend), P.friendMessageEv msg)]) /\
     (P.onlineUsers s !! friendId = None -> snd r = []) /\
     P.friendChats (fst r) =
       <[P.chatKey uid friendId :=
           default [] (P.friendChats s !! P.chatKey uid friendId) ++ [msg]]>
         (P.friendChats s) /\
     P.sameButLogs (fst r) s) /\
  (forall ins s1 s2, P.sameButLogs s1 s2 -> snd (P.run ins s1) = snd (P.run ins s2)) /\
  (forall sid target message nick time s,
     let r := S.privateMessage sid target message nick time s in
     let msg := S.PrivateMsg sid nick message time in
     fst r = s /\
     snd r = [(ToRoom target, S.privateMessageEv msg);
              (ToSocket sid, S.privateMessageEv msg)]).
Proof.
  split; [| split; [| split]].
  - exact Part000Facts.friendMessage_unresolved.
  - intros sid friendId message now s uid sender Hsock Hsender msg r.
    destruct (Part000Facts.friendMessage_resolved sid friendId message now s uid sender
                Hsock Hsender) as (Hout & Hlog & Hsame).
    cbn zeta in Hout, Hlog, Hsame. fold msg r in Hout, Hlog, Hsame.
    split; [| split; [| split]]; try assumption.
    + intros friend Hfriend. now rewrite Hout, Hfriend.
    + intros Hoff. now rewrite Hout, Hoff.
  - exact Part000Facts.run_log_blind.
  - intros sid target message nick time s. split; reflexivity.
Qed.

(** Bob, on [c2], writes to Ann, who is bound to [c1] in part_000: the one
    emission goes to [c1]. *)
Lemma direct_message_delivery_witness :
  snd (P.friendMessage "c2" "u1" "hello" 5 (fst (P.userJoin "c2" bob annOnline)))
  = [(ToRoom "c1", P.friendMessageEv (P.FriendMsg "u2" "u1" "Bob" "bob.png" "hello" 5))].
Proof.
  refine (proj1 (proj1 (proj2 direct_message_delivery) "c2" "u1" "hello" 5
                   (fst (P.userJoin "c2" bob annOnline)) "u2" (P.User bob "c2") _ _)
            (P.User ann "c1") _); vm_compute; reflexivity.
Defined.

(** C7 as stated fails on part_000: Ann, bound to [c1], writes to [u2], who
    is offline, and nothing at all is emitted, so nothing comes back to her
    own connection; and when Bob is online the only emission is the one to
    his connection. *)
Lemma part000_direct_message_not_echoed :
  P.currentUser "c1" annOnline = Some (P.User ann "c1") /\
  snd (P.friendMessage "c1" "u2" "hello" 5 annOnline) = [] /\
  snd (P.friendMessage "c1" "u2" "hello" 5 (fst (P.userJoin "c2" bob annOnline)))
  = [(ToRoom "c2", P.friendMessageEv (P.FriendMsg "u1" "u2" "Ann" "ann.png" "hello" 5))].
Proof. vm_compute. repeat split. Qed.

(** X15.  In server.js a disconnect of [sid] walks all
    rooms: a room that contained [sid] loses it and nothing else, a room
    that did not is left as it was; one [chatroomUserCount], carrying the
    new size, is emitted for each room that contained [sid], in the order of
    the rooms, and none for the others; the record under [sid] leaves the
    registry, every other record stays, and the new presence count is
    broadcast last. *)
Theorem disconnect_cleanup (sid : string) (s : S.state) :
  let r := S.disconnect sid s in
  S.chatrooms (fst r) =
    (fun kr => (kr.1, if decide (sid ∈ S.users kr.2)
                      then S.set_users (S.users kr.2 ∖ {[sid]}) kr.2 else kr.2))
      <$> S.chatrooms s /\
  (forall k room', (k, room') ∈ S.chatrooms (fst r) -> sid ∉ S.users room') /\
  (forall k room, (k, room) ∈ S.chatrooms s -> sid ∉ S.users room ->
                  (k, room) ∈ S.chatrooms (fst r)) /\
  snd r =
    ((fun kr => (ToRoom kr.1, S.chatroomUserCount (size (S.users kr.2 ∖ {[sid]}))))
       <$> filter (fun kr => sid ∈ S.users kr.2) (S.chatrooms s))
    ++ [(ToAll, S.onlineCount (size (delete sid (S.onlineUsers s))))] /\
  S.onlineUsers (fst r) !! sid = None /\
  (forall other, other <> sid ->
     S.onlineUsers (fst r) !! other = S.onlineUsers s !! other) /\
  S.allBubbles (fst r) = S.allBubbles s.
Proof.
  intros r. subst r. unfold S.disconnect.
  pose proof (disconnectRooms_rooms sid (S.chatrooms s)) as Hrooms.
  pose proof (disconnectRooms_out sid (S.chatrooms s)) as Hout.
  destruct (S.disconnectRooms sid (S.chatrooms s)) as [rs out].
  cbn [fst snd] in *. subst rs out. simpl.
  split; [reflexivity |]. split; [| split; [| split; [| split; [| split]]]].
  - intros k room' Hin. apply list_elem_of_fmap in Hin as ([k0 room] & Heq & _).
    simpl in Heq. injection Heq as -> ->.
    destruct (decide (sid ∈ S.users room)) as [Hin|Hnot]; [| exact Hnot].
    simpl. intros Hin'. apply elem_of_difference in Hin' as [_ Hne].
    apply Hne. now apply elem_of_singleton.
  - intros k room Hin Hnot. apply list_elem_of_fmap. exists (k, room).
    split; [| assumption]. simpl. now rewrite decide_False.
  - reflexivity.
  - apply lookup_delete_eq.
  - intros other Hne. now apply lookup_delete_ne.
  - reflexivity.
Qed.

(** [c1] leaves server.js while in [r1] and [r2]; [r3], where only [c2] is,
    stays as it was. *)
Lemma disconnect_cleanup_witness :
  ("r3", S.Room "r3" {["c2"]} []) ∈ S.chatrooms (fst (S.disconnect "c1" twoInRooms)).
Proof.
  apply (proj1 (proj2 (proj2 (disconnect_cleanup "c1" twoInRooms)))).
  - vm_compute. do 2 right. left.
  - vm_compute. intros H. discriminate H.
Defined.

(** C8.  Evaluated on part_000.  Ann, announced on [c1], is a member of the
    rooms [r1] and [r2] when [c1] disconnects.  Her record leaves the
    registry, but her user id stays among the members of both rooms, and the
    presence count is all that is emitted: no room is sent a new member
    count.  [leaveChatroom] in the same file, for the same connection and
    room, does remove her and does send the room its new count. *)
Theorem part000_disconnect_leaves_rooms :
  let r := P.disconnect "c1" annInRooms in
  P.members <$> P.chatrooms annInRooms !! "r1" = Some ["u1"] /\
  P.members <$> P.chatrooms annInRooms !! "r2" = Some ["u1"] /\
  P.onlineUsers (fst r) !! "u1" = None /\
  P.members <$> P.chatrooms (fst r) !! "r1" = Some ["u1"] /\
  P.members <$> P.chatrooms (fst r) !! "r2" = Some ["u1"] /\
  snd r = [(ToAll, P.onlineCount 0)] /\
  P.members <$> P.chatrooms (fst (P.leaveChatroom "c1" "r1" annInRooms)) !! "r1"
  = Some [] /\
  snd (P.leaveChatroom "c1" "r1" annInRooms) = [(ToRoom "r1", P.chatroomOnline 0)].
Proof. vm_compute. repeat split. Qed.

(** C9, as the code has it.  In part_000 a room message from a connection
    whose identity does not resolve changes nothing and emits nothing; when
    it resolves, the one record that is emitted, and appended if the room
    exists, carries the nickname and avatar of the registry (the payload has
    none).  In server.js the handler never consults the registry: whoever
    sends the event, the record carries the nickname of the payload, and it
    is appended and emitted whenever the room exists. *)
Theorem room_message_identity :
  (forall sid chatroomId message now s,
     P.currentUser sid s = None ->
     P.chatroomMessage sid chatroomId message now s = (s, [])) /\
  (forall sid chatroomId message now s user,
     P.currentUser sid s = Some user ->
     let msg := P.Message (nickname (P.userData user)) (avatar (P.userData user))
                  message now in
     let r := P.chatroomMessage sid chatroomId message now s in
     snd r = [(ToRoom chatroomId, P.chatroomMessageEv msg)] /\
     P.chatrooms (fst r) !! chatroomId =
       (fun room => P.Chatroom (P.messages room ++ [msg]) (P.members room))
         <$> P.chatrooms s !! chatroomId) /\
  (forall chatroomId message nick time registry s,
     S.chatroomMessage chatroomId message nick time (S.set_onlineUsers registry s) =
     (S.set_onlineUsers registry (fst (S.chatroomMessage chatroomId message nick time s)),
      snd (S.chatroomMessage chatroomId message nick time s))) /\
  (forall chatroomId message nick time s room,
     S.rooms_get chatroomId (S.chatrooms s) = Some room ->
     let msg := S.Message nick message time in
     let r := S.chatroomMessage chatroomId message nick time s in
     snd r = [(ToRoom chatroomId, S.chatroomMessageEv msg)] /\
     S.rooms_get chatroomId (S.chatrooms (fst r))
       = Some (S.set_messages (S.pushBounded msg (S.messages room)) room)).
Proof.
  split; [| split; [| split]].
  - exact Part000Facts.chatroomMessage_unresolved.
  - intros sid chatroomId message now s user Hu msg r.
    destruct (Part000Facts.chatroomMessage_resolved sid chatroomId message now s user Hu)
      as (Hout & Hget & _).
    split; assumption.
  - exact chatroomMessage_ignores_registry.
  - intros chatroomId message nick time s room Hget msg r.
    destruct (chatroomMessage_room chatroomId message nick time s room Hget)
      as (Hget' & _ & Hout).
    split; assumption.
Qed.

(** In part_000 connection [c9] never announced itself: its room message is
    dropped. *)
Lemma room_message_identity_witness :
  P.currentUser "c9" annInRooms = None /\
  P.chatroomMessage "c9" "r1" "hi" 5 annInRooms = (annInRooms, []).
Proof.
  assert (H : P.currentUser "c9" annInRooms = None) by (vm_compute; reflexivity).
  split; [exact H |].
  exact (proj1 room_message_identity "c9" "r1" "hi" 5 annInRooms H).
Defined.

(** C9 as stated fails on server.js: connection [c1] is not in the registry,
    and its message, under the nickname it chose, is appended to the room
    and emitted to it. *)
Lemma serverjs_accepts_unbound_room_message :
  S.onlineUsers roomOpened !! "c1" = None /\
  let r := S.step (S.ChatroomMessage "c1" "r" "hi" "admin" "10:00") roomOpened in
  snd r = [(ToRoom "r", S.chatroomMessageEv (S.Message "admin" "hi" "10:00"))] /\
  S.messages <$> S.rooms_get "r" (S.chatrooms (fst r))
    = Some [S.Message "admin" "hi" "10:00"].
Proof. vm_compute. repeat split. Qed.

(** * Further properties of src/server.js *)

Module ServerJsExtra.
Import ServerJs ServerJsFacts.

(** ** Rooms *)

Lemma rooms_get_app k rs1 rs2 :
  rooms_get k (rs1 ++ rs2) =
  match rooms_get k rs1 with Some r => Some r | None => rooms_get k rs2 end.
Proof.
  induction rs1 as [|[k0 r0] rs1 IH]; simpl; [reflexivity |].
  now destruct (String.eqb k k0).
Qed.

Lemma rooms_get_add_eq k r rs :
  rooms_get k rs = None -> rooms_get k (rooms_add k r rs) = Some r.
Proof.
  intros H. unfold rooms_add. rewrite rooms_get_app, H. simpl.
  now rewrite String.eqb_refl.
Qed.

Lemma rooms_get_add_ne k k' r rs :
  k <> k' -> rooms_get k' (rooms_add k r rs) = rooms_get k' rs.
Proof.
  intros Hne. unfold rooms_add. rewrite rooms_get_app. simpl.
  assert (String.eqb k' k = false) as -> by (apply String.eqb_neq; congruence).
  now destruct (rooms_get k' rs).
Qed.

Lemma rooms_get_keys k rs : rooms_get k rs = None <-> k ∉ rs.*1.
Proof.
  induction rs as [|[k0 r0] rs IH].
  - split; [intros _ H; inversion H | reflexivity].
  - cbn [rooms_get]. rewrite fmap_cons, not_elem_of_cons. cbn [fst].
    destruct (String.eqb k k0) eqn:Hk.
    + apply String.eqb_eq in Hk as <-. split; [discriminate | tauto].
    + apply String.eqb_neq in Hk. rewrite IH. tauto.
Qed.

Lemma rooms_alter_keys f k rs : (rooms_alter f k rs).*1 = rs.*1.
Proof.
  induction rs as [|[k0 r0] rs IH]; [reflexivity |].
  cbn [rooms_alter]. destruct (String.eqb k k0); rewrite !fmap_cons;
    [reflexivity | now rewrite IH].
Qed.

Lemma rooms_alter_alter f g k rs :
  rooms_alter g k (rooms_alter f k rs) = rooms_alter (fun r => g (f r)) k rs.
Proof.
  induction rs as [|[k0 r0] rs IH]; simpl; [reflexivity |].
  destruct (String.eqb k k0) eqn:Hk; simpl; rewrite Hk; [reflexivity | now rewrite IH].
Qed.

Lemma rooms_alter_fixes f k rs room :
  rooms_get k rs = Some room -> f room = room -> rooms_alter f k rs = rs.
Proof.
  induction rs as [|[k0 r0] rs IH]; simpl; [discriminate |].
  destruct (String.eqb k k0).
  - intros [= ->] ->. reflexivity.
  - intros Hget Hf. now rewrite IH.
Qed.

Lemma rooms_alter_ext f g k rs room :
  rooms_get k rs = Some room -> f room = g room ->
  rooms_alter f k rs = rooms_alter g k rs.
Proof.
  induction rs as [|[k0 r0] rs IH]; simpl; [discriminate |].
  destruct (String.eqb k k0).
  - intros [= ->] ->. reflexivity.
  - intros Hget Hf. now rewrite IH.
Qed.

Lemma union_member (sid : string) (X : gset string) : sid ∈ X -> {[sid]} ∪ X = X.
Proof. intros H. apply subseteq_union_1_L. now apply singleton_subseteq_l. Qed.

Lemma union_twice (sid : string) (X : gset string) :
  {[sid]} ∪ ({[sid]} ∪ X) = {[sid]} ∪ X.
Proof. now rewrite (assoc_L (∪)), (idemp_L (∪)). Qed.

Lemma union_then_remove (sid : string) (X : gset string) :
  sid ∉ X -> ({[sid]} ∪ X) ∖ {[sid]} = X.
Proof.
  intros H. rewrite difference_union_distr_l_L, difference_diag_L, (left_id_L ∅ (∪)).
  apply difference_disjoint_L. now apply disjoint_singleton_r.
Qed.

Lemma size_union_new (sid : string) (X : gset string) :
  sid ∉ X -> size ({[sid]} ∪ X) = S (size X).
Proof.
  intros H. rewrite size_union by now apply disjoint_singleton_l.
  now rewrite size_singleton.
Qed.

Lemma remove_absent (sid : string) (X : gset string) : sid ∉ X -> X ∖ {[sid]} = X.
Proof. intros H. apply difference_disjoint_L. now apply disjoint_singleton_r. Qed.

Lemma joinChatroom_room sid k s :
  rooms_get k (chatrooms (fst (joinChatroom sid k s))) =
  Some (match rooms_get k (chatrooms s) with
        | Some room => set_users ({[sid]} ∪ users room) room
        | None => Room k ({[sid]} ∪ ∅) []
        end).
Proof.
  unfold joinChatroom. simpl. rewrite rooms_get_alter_eq.
  destruct (rooms_get k (chatrooms s)) as [room|] eqn:Hget.
  - now rewrite Hget.
  - now rewrite rooms_get_add_eq.
Qed.


(** X1.  [joinChatroom] creates the room if it is missing, with an empty
    history, and adds the connection to its members; the history and every
    other room, the registry and the store stay as they were.  The joiner
    alone is sent the history, and the room is sent the new member count:
    one more than before for a new member, the same for a member. *)
Theorem joinChatroom_effect (sid k : string) (s : state) :
  let r := joinChatroom sid k s in
  let before := rooms_get k (chatrooms s) in
  exists room',
    rooms_get k (chatrooms (fst r)) = Some room' /\
    users room' = {[sid]} ∪ from_option users ∅ before /\
    messages room' = from_option messages [] before /\
    snd r = [(ToSocket sid, chatroomHistory (messages room'));
             (ToRoom k, chatroomUserCount (size (users room')))] /\
    (sid ∉ from_option users ∅ before ->
     size (users room') = S (size (from_option users ∅ before))) /\
    (sid ∈ from_option users ∅ before -> users room' = from_option users ∅ before) /\
    (forall other, other <> k ->
       rooms_get other (chatrooms (fst r)) = rooms_get other (chatrooms s)) /\
    onlineUsers (fst r) = onlineUsers s /\ allBubbles (fst r) = allBubbles s.
Proof.
  intros r before. pose proof (joinChatroom_room sid k s) as Hroom. fold r in Hroom.
  eexists. split; [exact Hroom |].
  assert (Hu : users match rooms_get k (chatrooms s) with
                     | Some room => set_users ({[sid]} ∪ users room) room
                     | None => Room k ({[sid]} ∪ ∅) []
                     end = {[sid]} ∪ from_option users ∅ before).
  { subst before. now destruct (rooms_get k (chatrooms s)). }
  assert (Hm : messages match rooms_get k (chatrooms s) with
                        | Some room => set_users ({[sid]} ∪ users room) room
                        | None => Room k ({[sid]} ∪ ∅) []
                        end = from_option messages [] before).
  { subst before. now destruct (rooms_get k (chatrooms s)). }
  split; [exact Hu |]. split; [exact Hm |]. split.
  { subst r. unfold joinChatroom. cbn [snd].
    unfold joinChatroom in Hroom. cbn [fst chatrooms set_chatrooms] in Hroom.
    rewrite Hroom. reflexivity. }
  split.
  { intros Hnot. rewrite Hu. now apply size_union_new. }
  split.
  { intros Hin. rewrite Hu. now apply union_member. }
  split.
  { intros other Hne. subst r. unfold joinChatroom. simpl.
    rewrite rooms_get_alter_ne by congruence.
    destruct (rooms_get k (chatrooms s)); [reflexivity |].
    now apply rooms_get_add_ne. }
  split; reflexivity.
Qed.

(** [c2] joins the room [r] that it opened itself: the count stays 1. *)
Lemma joinChatroom_effect_witness :
  exists room',
    rooms_get "r" (chatrooms (fst (joinChatroom "c2" "r" roomOpened))) = Some room' /\
    users room' = {["c2"]}.
Proof.
  destruct (joinChatroom_effect "c2" "r" roomOpened)
    as (room' & Hget & _ & _ & _ & _ & Hsame & _).
  exists room'. split; [exact Hget |].
  rewrite Hsame; vm_compute; reflexivity.
Defined.

(** X2.  Joining a room a second time from the same connection changes
    nothing: the state after the second join is the state after the first,
    and the member count sent to the room is the same. *)
Theorem joinChatroom_twice (sid k : string) (s : state) :
  let s1 := fst (joinChatroom sid k s) in
  fst (joinChatroom sid k s1) = s1 /\
  snd (joinChatroom sid k s1) = snd (joinChatroom sid k s).
Proof.
  intros s1.
  pose proof (joinChatroom_room sid k s) as Hroom. fold s1 in Hroom.
  assert (Hrooms : rooms_alter (fun r => set_users ({[sid]} ∪ users r) r) k (chatrooms s1)
                   = chatrooms s1).
  { eapply rooms_alter_fixes; [exact Hroom |].
    destruct (rooms_get k (chatrooms s)) as [[i u m]|]; unfold set_users; simpl;
      f_equal; apply union_twice. }
  assert (Hfst : fst (joinChatroom sid k s1) = s1).
  { unfold joinChatroom at 1. cbn [fst]. rewrite Hroom, Hrooms. now destruct s1. }
  split; [exact Hfst |].
  pose proof (joinChatroom_room sid k s1) as Hroom1. rewrite Hfst, Hroom in Hroom1.
  unfold joinChatroom at 1. cbn [snd]. rewrite Hroom. rewrite Hrooms, Hroom.
  unfold joinChatroom. cbn [snd].
  unfold joinChatroom in Hroom. cbn [fst chatrooms set_chatrooms] in Hroom.
  subst s1. unfold joinChatroom in Hroom. cbn [fst chatrooms set_chatrooms] in Hroom.
  now rewrite Hroom.
Qed.

(** X3.  A connection that joins a room it was not in and leaves it again
    leaves the room directory as it found an existing room; a room it
    created by joining stays behind, empty, with its history.  Leaving a
    room that does not exist changes nothing and emits nothing. *)
Theorem join_then_leave (sid k : string) (s : state) :
  (forall room, rooms_get k (chatrooms s) = Some room -> sid ∉ users room ->
     chatrooms (fst (leaveChatroom sid k (fst (joinChatroom sid k s)))) = chatrooms s) /\
  (rooms_get k (chatrooms s) = None ->
     chatrooms (fst (leaveChatroom sid k (fst (joinChatroom sid k s))))
     = chatrooms s ++ [(k, Room k ∅ [])]) /\
  (rooms_get k (chatrooms s) = None -> leaveChatroom sid k s = (s, [])).
Proof.
  split; [| split].
  - intros room Hget Hnot.
    pose proof (joinChatroom_room sid k s) as Hroom. rewrite Hget in Hroom.
    unfold leaveChatroom. rewrite Hroom. cbn [fst chatrooms set_chatrooms].
    unfold joinChatroom. cbn [fst chatrooms set_chatrooms]. rewrite Hget.
    rewrite rooms_alter_alter. eapply rooms_alter_fixes; [exact Hget |].
    destruct room as [i u m]. unfold set_users. simpl in *. f_equal.
    now apply union_then_remove.
  - intros Hget.
    pose proof (joinChatroom_room sid k s) as Hroom. rewrite Hget in Hroom.
    unfold leaveChatroom. rewrite Hroom. cbn [fst chatrooms set_chatrooms].
    unfold joinChatroom. cbn [fst chatrooms set_chatrooms]. rewrite Hget.
    rewrite rooms_alter_alter. unfold rooms_add.
    assert (Halter : forall f rs, rooms_get k rs = None ->
              rooms_alter f k (rs ++ [(k, Room k ∅ [])]) = rs ++ [(k, f (Room k ∅ []))]).
    { intros f rs. induction rs as [|[k0 r0] rs IH]; simpl.
      - now rewrite String.eqb_refl.
      - destruct (String.eqb k k0); [discriminate |]. intros H. now rewrite IH. }
    rewrite Halter by assumption. unfold set_users. simpl.
    rewrite (union_then_remove sid ∅) by apply not_elem_of_empty. reflexivity.
  - intros Hget. unfold leaveChatroom. now rewrite Hget.
Qed.

(** [c1] joins the room [r] that [c2] opened, and leaves it. *)
Lemma join_then_leave_witness :
  chatrooms (fst (leaveChatroom "c1" "r" (fst (joinChatroom "c1" "r" roomOpened))))
  = chatrooms roomOpened.
Proof.
  apply (proj1 (join_then_leave "c1" "r" roomOpened) (Room "r" {["c2"]} [])).
  - vm_compute. reflexivity.
  - vm_compute. intros H. discriminate H.
Defined.


(** ** The room directory along a run *)

Lemma disconnectRooms_keys sid rs : (fst (disconnectRooms sid rs)).*1 = rs.*1.
Proof.
  rewrite disconnectRooms_rooms, <- list_fmap_compose.
  apply list_fmap_ext. now intros _ [k r] _.
Qed.

Lemma step_keys i s :
  (chatrooms (fst (step i s))).*1 = (chatrooms s).*1 ++ createdRoom i s.
Proof.
  destruct_input i; cbn [step createdRoom]; rewrite ?app_nil_r; try reflexivity.
  - unfold publishBubble. simpl. now destruct (isPrivate bubbleData).
  - unfold joinChatroom. cbn [fst chatrooms set_chatrooms].
    rewrite rooms_alter_keys.
    destruct (rooms_get chatroomId (chatrooms s)); [now rewrite app_nil_r |].
    unfold rooms_add. now rewrite fmap_app.
  - unfold chatroomMessage. case_match; [| reflexivity].
    cbn [fst chatrooms set_chatrooms]. apply rooms_alter_keys.
  - unfold leaveChatroom. case_match; [| reflexivity].
    cbn [fst chatrooms set_chatrooms]. apply rooms_alter_keys.
  - unfold disconnect.
    pose proof (disconnectRooms_keys sid (chatrooms s)) as Hk.
    destruct (disconnectRooms sid (chatrooms s)) as [rs out]. exact Hk.
  - destruct (timers s !! k); [| reflexivity]. unfold expireBubble. now case_match.
Qed.

Lemma step_room_ids i s :
  Forall (fun kr => room_id kr.2 = kr.1) (chatrooms s) ->
  Forall (fun kr => room_id kr.2 = kr.1) (chatrooms (fst (step i s))).
Proof.
  intros Hinv. destruct_input i; cbn [step]; try assumption.
  - unfold publishBubble. simpl. now destruct (isPrivate bubbleData).
  - unfold joinChatroom. cbn [fst chatrooms set_chatrooms].
    apply rooms_alter_Forall; [auto |].
    destruct (rooms_get chatroomId (chatrooms s)); [assumption |].
    apply Forall_app. split; [assumption |]. now repeat constructor.
  - unfold chatroomMessage. case_match; [| assumption].
    apply rooms_alter_Forall; [auto | assumption].
  - unfold leaveChatroom. case_match; [| assumption].
    apply rooms_alter_Forall; [auto | assumption].
  - unfold disconnect.
    pose proof (disconnectRooms_rooms sid (chatrooms s)) as Hrs.
    destruct (disconnectRooms sid (chatrooms s)) as [rs out]. simpl in *. subst rs.
    apply Forall_fmap. eapply Forall_impl; [exact Hinv |].
    intros [k0 r0] Hr. simpl in *. now destruct (decide (sid ∈ users r0)).
  - destruct (timers s !! k); [| assumption]. unfold expireBubble. now case_match.
Qed.

Lemma createdRoom_fresh i s x : x ∈ createdRoom i s -> x ∉ (chatrooms s).*1.
Proof.
  destruct i; simpl; try (intros H; now inversion H).
  destruct (rooms_get chatroomId (chatrooms s)) eqn:Hget; [intros H; inversion H |].
  intros H. apply list_elem_of_singleton in H as ->. now apply rooms_get_keys.
Qed.

Lemma createdRoom_joined i s x : x ∈ createdRoom i s -> x ∈ joinedRooms [i].
Proof.
  destruct i; simpl; try (intros H; now inversion H).
  destruct (rooms_get chatroomId (chatrooms s)); [intros H; inversion H | auto].
Qed.

Lemma joinedRooms_cons i ins : joinedRooms (i :: ins) = joinedRooms [i] ++ joinedRooms ins.
Proof. unfold joinedRooms. simpl. now destruct (match i with JoinChatroom _ _ => _ | _ => _ end). Qed.

Lemma joined_room_exists i s x :
  x ∈ joinedRooms [i] -> x ∈ (chatrooms (fst (step i s))).*1.
Proof.
  rewrite step_keys. destruct i; simpl; try (intros H; now inversion H).
  intros H. apply list_elem_of_singleton in H as ->.
  destruct (rooms_get chatroomId (chatrooms s)) eqn:Hget.
  - rewrite app_nil_r. apply rooms_get_elem_of in Hget.
    apply list_elem_of_fmap. now exists (chatroomId, r).
  - apply elem_of_app. right. left.
Qed.

(** X4.  Along every run the room directory only grows at its end: the
    rooms present at the start stay, in their order, no room id occurs
    twice, every room carries its own id, and afterwards a room exists under
    an id exactly when it existed at the start or some [joinChatroom] named
    it.  No handler ever removes a room. *)
Theorem rooms_only_grow (ins : list input) (s : state) :
  let s' := fst (run ins s) in
  (chatrooms s).*1 `prefix_of` (chatrooms s').*1 /\
  (NoDup (chatrooms s).*1 -> NoDup (chatrooms s').*1) /\
  (Forall (fun kr => room_id kr.2 = kr.1) (chatrooms s) ->
   Forall (fun kr => room_id kr.2 = kr.1) (chatrooms s')) /\
  (forall k, k ∈ (chatrooms s').*1 <-> k ∈ (chatrooms s).*1 \/ k ∈ joinedRooms ins).
Proof.
  revert s. induction ins as [|i ins IH]; intros s.
  - simpl. split; [reflexivity |]. split; [auto |]. split; [auto |].
    intros k. split; [auto | intros [H|H]; [assumption | inversion H]].
  - cbn [run]. rewrite joinedRooms_cons.
    pose proof (step_keys i s) as Hkeys. pose proof (step_room_ids i s) as Hids.
    pose proof (createdRoom_fresh i s) as Hfresh.
    pose proof (createdRoom_joined i s) as Hjoined.
    pose proof (joined_room_exists i s) as Hexists.
    destruct (step i s) as [s1 out1]. cbn [fst] in *.
    destruct (IH s1) as (Hpre & Hnd & Hid & Hiff).
    destruct (run ins s1) as [s2 out2]. cbn [fst] in *.
    split; [| split; [| split]].
    + etransitivity; [| exact Hpre]. rewrite Hkeys. now apply prefix_app_r.
    + intros H. apply Hnd. rewrite Hkeys. apply NoDup_app.
      split; [assumption |]. split.
      * intros x Hx Hx'. exact (Hfresh x Hx' Hx).
      * destruct i; simpl; try apply NoDup_nil_2.
        destruct (rooms_get chatroomId (chatrooms s));
          [apply NoDup_nil_2 | apply NoDup_singleton].
    + auto.
    + intros k. rewrite Hiff, Hkeys, !elem_of_app. split.
      * intros [[H|H]|H]; auto.
      * intros [H|[H|H]]; auto. left. rewrite <- elem_of_app, <- Hkeys. auto.
Qed.

(** From the start of the server: the rooms are those that were joined, each
    once. *)
Lemma rooms_only_grow_witness :
  NoDup (chatrooms (fst (run [JoinChatroom "c1" "r"; JoinChatroom "c2" "r";
                              LeaveChatroom "c1" "r"; Disconnect "c2"] init))).*1.
Proof.
  apply (proj1 (proj2 (rooms_only_grow _ init))). simpl. apply NoDup_nil_2.
Defined.


(** ** The registry along a run *)

Lemma step_registry_dom i s :
  dom (onlineUsers (fst (step i s))) = announcedFrom (dom (onlineUsers s)) [i].
Proof.
  destruct_input i; cbn [step announcedFrom foldl]; try reflexivity.
  - unfold userJoin. cbn [fst onlineUsers set_onlineUsers]. apply dom_insert_L.
  - unfold publishBubble. simpl. now destruct (isPrivate bubbleData).
  - unfold chatroomMessage. now case_match.
  - unfold leaveChatroom. now case_match.
  - unfold disconnect. destruct (disconnectRooms sid (chatrooms s)) as [rs out].
    cbn [fst onlineUsers set_onlineUsers set_chatrooms]. apply dom_delete_L.
  - destruct (timers s !! k); [| reflexivity]. unfold expireBubble. now case_match.
Qed.

Lemma step_registry_keys i s :
  (forall k u, onlineUsers s !! k = Some u -> socketId u = k) ->
  forall k u, onlineUsers (fst (step i s)) !! k = Some u -> socketId u = k.
Proof.
  intros Hinv. destruct_input i; cbn [step]; try exact Hinv.
  - unfold userJoin. cbn [fst onlineUsers set_onlineUsers]. intros k u.
    rewrite lookup_insert. case_decide as Hk.
    + intros [= <-]. now subst.
    + apply Hinv.
  - unfold publishBubble. simpl. now destruct (isPrivate bubbleData).
  - unfold chatroomMessage. now case_match.
  - unfold leaveChatroom. now case_match.
  - unfold disconnect. destruct (disconnectRooms sid (chatrooms s)) as [rs out].
    cbn [fst onlineUsers set_onlineUsers set_chatrooms]. intros k u.
    rewrite lookup_delete. case_decide; [discriminate | apply Hinv].
  - destruct (timers s !! k); [| exact Hinv]. unfold expireBubble. now case_match.
Qed.

Lemma run_registry_dom ins s :
  dom (onlineUsers (fst (run ins s))) = announcedFrom (dom (onlineUsers s)) ins.
Proof.
  revert s. induction ins as [|i ins IH]; intros s; [reflexivity |].
  cbn [run]. pose proof (step_registry_dom i s) as Hstep.
  destruct (step i s) as [s1 out1]. specialize (IH s1).
  destruct (run ins s1) as [s2 out2]. cbn [fst] in *.
  rewrite IH, Hstep. reflexivity.
Qed.

Lemma run_registry_keys ins s :
  (forall k u, onlineUsers s !! k = Some u -> socketId u = k) ->
  forall k u, onlineUsers (fst (run ins s)) !! k = Some u -> socketId u = k.
Proof.
  revert s. induction ins as [|i ins IH]; intros s Hinv; [exact Hinv |].
  cbn [run]. pose proof (step_registry_keys i s Hinv) as Hstep.
  destruct (step i s) as [s1 out1]. specialize (IH s1 Hstep).
  now destruct (run ins s1) as [s2 out2].
Qed.

(** X5.  From the start of the server, after any run, the registry holds
    exactly the connections that announced themselves and have not
    disconnected since, each under its own socket id, whatever [socketId]
    the payload carried; the presence figure of the status route is their
    number. *)
Theorem registry_is_announced (ins : list input) :
  let s := fst (run ins init) in
  dom (onlineUsers s) = announced ins /\
  (forall k u, onlineUsers s !! k = Some u -> socketId u = k) /\
  (status s).1.2 = size (announced ins).
Proof.
  intros s. split; [| split].
  - subst s. rewrite run_registry_dom. unfold announced. simpl. now rewrite dom_empty_L.
  - apply run_registry_keys. intros k u. simpl. now rewrite lookup_empty.
  - unfold status. cbn [fst snd]. rewrite <- size_dom. subst s. rewrite run_registry_dom.
    unfold announced. simpl. now rewrite dom_empty_L.
Qed.

(** After two announcements and one disconnect one connection is present. *)
Lemma registry_is_announced_witness :
  socketId <$> onlineUsers (fst (run [UserJoin "c1" ann 0 0; UserJoin "c2" bob 0 0;
                                      Disconnect "c1"] init)) !! "c2"
  = Some "c2".
Proof.
  destruct (onlineUsers (fst (run [UserJoin "c1" ann 0 0; UserJoin "c2" bob 0 0;
                                   Disconnect "c1"] init)) !! "c2") as [u|] eqn:Hu.
  - simpl. f_equal.
    exact (proj1 (proj2 (registry_is_announced
                           [UserJoin "c1" ann 0 0; UserJoin "c2" bob 0 0; Disconnect "c1"]))
             "c2" u Hu).
  - vm_compute in Hu. discriminate Hu.
Defined.

(** ** Snapshots and the sweep *)

Lemma filter_filter_implied {A} (p q : A -> bool) (l : list A) :
  (forall x, p x = true -> q x = true) ->
  List.filter p (List.filter q l) = List.filter p l.
Proof.
  intros Himp. induction l as [|x l IH]; simpl; [reflexivity |].
  destruct (q x) eqn:Hq; simpl.
  - destruct (p x); now rewrite IH.
  - destruct (p x) eqn:Hp; [| exact IH]. apply Himp in Hp. congruence.
Qed.

(** X6.  The sweep never shows in a snapshot: a snapshot taken at the time
    of the sweep or later is the same whether or not the sweep has run,
    because what the sweep removes the snapshot filter hides anyway. *)
Theorem sweep_invisible_to_snapshots (now now' : Z) (s : state) :
  now <= now' ->
  apiBubbles now' (fst (sweep now s)) = apiBubbles now' s.
Proof.
  intros Hle. unfold apiBubbles, sweep. cbn [fst allBubbles set_allBubbles].
  apply filter_filter_implied. intros b Hb.
  apply isActive_spec in Hb as [Hnp Hlt]. apply sweepKeeps_spec.
  intros [_ Hclosed]. lia.
Qed.

Lemma sweep_invisible_to_snapshots_witness :
  2000 <= 2500 /\
  apiBubbles 2500 (fst (sweep 2000 (set_allBubbles [rain; diary] init)))
  = apiBubbles 2500 (set_allBubbles [rain; diary] init).
Proof.
  assert (H : 2000 <= 2500) by lia.
  split; [exact H |].
  exact (sweep_invisible_to_snapshots 2000 2500 (set_allBubbles [rain; diary] init) H).
Defined.


(** ** The expiry timer *)

(** X7.  When the timer of an id fires, the first stored bubble with that id
    is removed, and only it: the bubbles before and after it stay in their
    order, and the expiry of that id is announced to all, once. *)
Theorem expireBubble_removes_first (bid : string) (pre post : list bubble)
    (b : bubble) (s : state) :
  allBubbles s = pre ++ b :: post ->
  Forall (fun y => bubble_id y <> bid) pre ->
  bubble_id b = bid ->
  expireBubble bid s = (set_allBubbles (pre ++ post) s, [(ToAll, bubbleExpired bid)]).
Proof.
  intros Hstore Hpre Hb. unfold expireBubble. rewrite Hstore.
  rewrite findIndex_app_first.
  - now rewrite splice1_middle.
  - eapply Forall_impl; [exact Hpre |]. intros y Hy. simpl. now apply String.eqb_neq.
  - now apply String.eqb_eq.
Qed.

Lemma expireBubble_removes_first_witness :
  expireBubble "b1" (set_allBubbles [diary; rain; early] init)
  = (set_allBubbles [diary; early] init, [(ToAll, bubbleExpired "b1")]).
Proof.
  assert (Hpre : Forall (fun y => bubble_id y <> "b1") [diary])
    by (constructor; [discriminate | constructor]).
  exact (expireBubble_removes_first "b1" [diary] [early] rain
           (set_allBubbles [diary; rain; early] init) eq_refl Hpre eq_refl).
Defined.

Lemma step_expiry_budget i s :
  expiredIds (snd (step i s)) ++ pendingIds (fst (step i s))
    ⊆+ pendingIds s ++ publicIds [i].
Proof.
  assert (Hsame : pendingIds s ⊆+ pendingIds s ++ []) by now rewrite app_nil_r.
  unfold pendingIds in *.
  destruct_input i; cbn [step]; try exact Hsame.
  - unfold publishBubble. simpl. destruct (isPrivate bubbleData); simpl; [exact Hsame |].
    now rewrite fmap_app.
  - unfold chatroomMessage. case_match; exact Hsame.
  - unfold leaveChatroom. case_match; exact Hsame.
  - unfold disconnect.
    pose proof (disconnectRooms_expired sid (chatrooms s)) as Hd.
    destruct (disconnectRooms sid (chatrooms s)) as [rs out]. cbn [fst snd] in *.
    rewrite expiredIds_app, Hd. exact Hsame.
  - simpl. rewrite app_nil_r.
    destruct (timers s !! k) as [t|] eqn:Hk; [| reflexivity].
    assert (Hperm : timer_bubble <$> timers s
                    ≡ₚ timer_bubble t :: (timer_bubble <$> splice1 k (timers s))).
    { now rewrite (splice1_Permutation k (timers s) t Hk) at 1. }
    unfold expireBubble. case_match; simpl; rewrite Hperm.
    + reflexivity.
    + now apply submseteq_cons.
Qed.

Lemma run_expiry_budget ins s :
  expiredIds (snd (run ins s)) ++ pendingIds (fst (run ins s))
    ⊆+ pendingIds s ++ publicIds ins.
Proof.
  revert s. induction ins as [|i ins IH]; intros s.
  - simpl. now rewrite app_nil_r.
  - rewrite publicIds_cons. cbn [run].
    pose proof (step_expiry_budget i s) as Hstep.
    destruct (step i s) as [s1 out1]. specialize (IH s1).
    destruct (run ins s1) as [s2 out2]. cbn [fst snd] in *.
    rewrite expiredIds_app, <- app_assoc.
    etransitivity; [apply submseteq_skips_l, IH |].
    rewrite !app_assoc. now apply submseteq_skips_r.
Qed.

Lemma publicIds_sublist_draws ins :
  sublist (publicIds ins) ((fun d => mkId d.1 d.2) <$> draws ins).
Proof.
  induction ins as [|i ins IH]; [constructor |].
  rewrite publicIds_cons, draws_cons, fmap_app. apply sublist_app; [| exact IH].
  destruct i; simpl; try apply sublist_nil.
  destruct (isPrivate bubbleData); simpl.
  - apply sublist_cons, sublist_nil.
  - apply sublist_skip, sublist_nil.
Qed.

(** X8.  From the start of the server, along any run, the expiries announced
    so far together with the timers still pending are covered, with
    multiplicity, by the publications of non-private bubbles: an expiry is
    announced only for an id under which a non-private bubble was published,
    and at most once per such publication.  With pairwise distinct
    (clock, random suffix) draws no id is announced twice. *)
Theorem expiry_announced_at_most_once (ins : list input) :
  let r := run ins init in
  expiredIds (snd r) ++ pendingIds (fst r) ⊆+ publicIds ins /\
  (length (expiredIds (snd r)) <= length (publicIds ins))%nat /\
  (NoDup (draws ins) -> NoDup (expiredIds (snd r))).
Proof.
  intros r. pose proof (run_expiry_budget ins init) as Hbudget. fold r in Hbudget.
  simpl in Hbudget. split; [exact Hbudget |]. split.
  - apply submseteq_length in Hbudget. rewrite length_app in Hbudget. lia.
  - intros Hnd.
    assert (Hpub : NoDup (publicIds ins)).
    { eapply sublist_NoDup; [| apply publicIds_sublist_draws].
      assert (Hinj : Inj (=) (=) (fun d : Z * string => mkId d.1 d.2)).
      { intros [t1 r1] [t2 r2] Heq. simpl in Heq.
        apply mkId_inj in Heq as [-> ->]. reflexivity. }
      now apply (NoDup_fmap_2 _). }
    assert (Hall : NoDup (expiredIds (snd r) ++ pendingIds (fst r))).
    { apply submseteq_Permutation in Hbudget as [k Hk]. rewrite Hk in Hpub.
      now apply NoDup_app in Hpub as [? _]. }
    now apply NoDup_app in Hall as [? _].
Qed.

(** Two public bubbles, both timers fire, the first one twice over: two
    announcements, no more. *)
Lemma expiry_announced_at_most_once_witness :
  NoDup (expiredIds (snd (run [PublishBubble "c1" rain 1000 "k3x9" 1000;
                               PublishBubble "c2" rain 1000 "p07q" 1000;
                               TimerFires 0; TimerFires 0; TimerFires 0] init))).
Proof.
  apply (proj2 (proj2 (expiry_announced_at_most_once _))).
  vm_compute. apply NoDup_cons. split.
  - intros H. apply elem_of_cons in H as [H|H]; [discriminate | inversion H].
  - apply NoDup_cons. split; [intros H; inversion H | apply NoDup_nil_2].
Defined.

(** ** Disconnect *)

Lemma disconnectRooms_absent sid rs :
  Forall (fun kr => sid ∉ users kr.2) rs -> disconnectRooms sid rs = (rs, []).
Proof.
  induction 1 as [|[k r] rs Hr _ IH]; simpl; [reflexivity |].
  rewrite IH. simpl in Hr. now rewrite decide_False.
Qed.

(** X9.  A second disconnect of the same connection finds nothing to do: no
    room contains the connection any more, so no room count is emitted, the
    state stays as the first disconnect left it, and the presence count that
    is broadcast is the same again. *)
Theorem disconnect_twice (sid : string) (s : state) :
  let s1 := fst (disconnect sid s) in
  disconnect sid s1 = (s1, [(ToAll, onlineCount (size (onlineUsers s1)))]).
Proof.
  intros s1.
  assert (Hs1 : s1 = set_onlineUsers (delete sid (onlineUsers s))
                       (set_chatrooms (fst (disconnectRooms sid (chatrooms s))) s)).
  { subst s1. unfold disconnect. now destruct (disconnectRooms sid (chatrooms s)). }
  assert (Habs : Forall (fun kr => sid ∉ users kr.2) (chatrooms s1)).
  { rewrite Hs1. cbn [chatrooms set_chatrooms set_onlineUsers].
    rewrite disconnectRooms_rooms. apply Forall_fmap, Forall_forall.
    intros [k r] _. simpl.
    destruct (decide (sid ∈ users r)) as [Hin|Hnot]; [| exact Hnot].
    simpl. intros Hin'. apply elem_of_difference in Hin' as [_ Hne].
    apply Hne. now apply elem_of_singleton. }
  assert (Hreg : delete sid (onlineUsers s1) = onlineUsers s1).
  { rewrite Hs1. cbn [onlineUsers set_onlineUsers]. apply delete_delete_eq. }
  unfold disconnect. rewrite (disconnectRooms_absent _ _ Habs).
  cbn [onlineUsers set_chatrooms set_onlineUsers allBubbles chatrooms privateChats timers].
  rewrite Hreg. now destruct s1.
Qed.

End ServerJsExtra.

(** * Further properties of src/unnamed/part_000 *)

Module Part000Extra.
Import Part000 Part000Facts.

(** ** Friend chats *)

Lemma chatKey_sym a b : chatKey a b = chatKey b a.
Proof.
  unfold chatKey.
  destruct (String.leb a b) eqn:Hab, (String.leb b a) eqn:Hba; try reflexivity.
  - now rewrite (String.leb_antisym a b Hab Hba).
  - destruct (String.leb_total a b); congruence.
Qed.

(** X10.  A conversation is keyed by the unordered pair of its participants:
    the key does not depend on who writes, so a message from [u1] to [u2]
    and the answer from [u2] to [u1] end up, in that order, at the end of
    one and the same log. *)
Theorem conversation_shares_log (s : state) (c1 c2 u1 u2 m1 m2 : string) (t1 t2 : Z)
    (p1 p2 : user) :
  socketUser s !! c1 = Some u1 -> onlineUsers s !! u1 = Some p1 ->
  socketUser s !! c2 = Some u2 -> onlineUsers s !! u2 = Some p2 ->
  let s2 := fst (friendMessage c2 u1 m2 t2 (fst (friendMessage c1 u2 m1 t1 s))) in
  chatKey u1 u2 = chatKey u2 u1 /\
  friendChats s2 !! chatKey u1 u2 =
    Some (default [] (friendChats s !! chatKey u1 u2) ++
          [FriendMsg u1 u2 (nickname (userData p1)) (avatar (userData p1)) m1 t1;
           FriendMsg u2 u1 (nickname (userData p2)) (avatar (userData p2)) m2 t2]).
Proof.
  intros Hc1 Hu1 Hc2 Hu2 s2. split; [apply chatKey_sym |].
  destruct (friendMessage_resolved c1 u2 m1 t1 s u1 p1 Hc1 Hu1) as (_ & Hlog1 & Hsame1).
  cbn zeta in Hlog1, Hsame1. destruct Hsame1 as (Hreg & _ & _ & Hsock & _).
  destruct (friendMessage_resolved c2 u1 m2 t2 (fst (friendMessage c1 u2 m1 t1 s)) u2 p2)
    as (_ & Hlog2 & _).
  { now rewrite Hsock. }
  { now rewrite Hreg. }
  cbn zeta in Hlog2. subst s2. rewrite Hlog2, Hlog1, (chatKey_sym u2 u1).
  rewrite !lookup_insert_eq. simpl. now rewrite <- app_assoc.
Qed.

(** Ann and Bob, both announced, write to each other. *)
Lemma conversation_shares_log_witness :
  friendChats (fst (friendMessage "c2" "u1" "hello" 6
                      (fst (friendMessage "c1" "u2" "hi" 5
                              (fst (userJoin "c2" bob annOnline))))))
    !! chatKey "u1" "u2"
  = Some ([] ++ [FriendMsg "u1" "u2" "Ann" "ann.png" "hi" 5;
                 FriendMsg "u2" "u1" "Bob" "bob.png" "hello" 6]).
Proof.
  refine (proj2 (conversation_shares_log (fst (userJoin "c2" bob annOnline))
                   "c1" "c2" "u1" "u2" "hi" "hello" 5 6 (User ann "c1") (User bob "c2")
                   _ _ _ _)); vm_compute; reflexivity.
Defined.

(** ** Registry *)

Lemma step_registry_ids i s :
  (forall k u, onlineUsers s !! k = Some u -> user_id (userData u) = k) ->
  forall k u, onlineUsers (fst (step i s)) !! k = Some u -> user_id (userData u) = k.
Proof.
  intros Hinv. destruct_input i; cbn [step].
  - unfold userJoin. cbn [fst onlineUsers set_onlineUsers set_socketUser]. intros k u.
    rewrite lookup_insert. case_decide as Hk.
    + intros [= <-]. now subst.
    + apply Hinv.
  - unfold publishBubble. now destruct (isPrivate bubbleData).
  - exact Hinv.
  - unfold chatroomMessage. repeat case_match; exact Hinv.
  - unfold leaveChatroom. repeat case_match; exact Hinv.
  - unfold friendMessage. repeat case_match; exact Hinv.
  - unfold disconnect. repeat case_match; try exact Hinv.
    cbn [fst onlineUsers set_onlineUsers]. intros k u.
    rewrite lookup_delete. case_decide; [discriminate | apply Hinv].
  - destruct (timers s !! k); [| exact Hinv]. unfold expireBubble. now case_match.
Qed.

(** X11.  From the start of the server, after any run, every record of the
    registry sits under the user id it carries. *)
Theorem registry_keyed_by_user_id (ins : list input) :
  forall k u, onlineUsers (fst (run ins init)) !! k = Some u -> user_id (userData u) = k.
Proof.
  assert (H : forall s,
            (forall k u, onlineUsers s !! k = Some u -> user_id (userData u) = k) ->
            forall k u, onlineUsers (fst (run ins s)) !! k = Some u ->
                        user_id (userData u) = k).
  { induction ins as [|i ins IH]; intros s Hinv; [exact Hinv |].
    cbn [run]. pose proof (step_registry_ids i s Hinv) as Hstep.
    destruct (step i s) as [s1 out1]. specialize (IH s1 Hstep).
    now destruct (run ins s1) as [s2 out2]. }
  apply H. intros k u. simpl. now rewrite lookup_empty.
Qed.

Lemma registry_keyed_by_user_id_witness :
  user_id <$> (userData <$> onlineUsers (fst (run [UserJoin "c1" ann] init)) !! "u1")
  = Some "u1".
Proof.
  destruct (onlineUsers (fst (run [UserJoin "c1" ann] init)) !! "u1") as [u|] eqn:Hu.
  - simpl. f_equal. exact (registry_keyed_by_user_id [UserJoin "c1" ann] "u1" u Hu).
  - vm_compute in Hu. discriminate Hu.
Defined.

(** X12.  The registry record belongs to the user id, not to the
    connection: when a user who is announced on [c1] announces again on
    [c2] and [c1] then disconnects, the record is deleted although [c2] is
    still connected; from then on the identity of [c2] does not resolve, and
    its room messages are dropped. *)
Theorem stale_disconnect_unbinds_live_connection (s : state) (c1 c2 : string)
    (data : profile) :
  user_id data <> "" ->
  let s3 := fst (disconnect c1 (fst (userJoin c2 data (fst (userJoin c1 data s))))) in
  onlineUsers s3 !! user_id data = None /\
  socketUser s3 !! c2 = Some (user_id data) /\
  currentUser c2 s3 = None /\
  forall chatroomId message now,
    chatroomMessage c2 chatroomId message now s3 = (s3, []).
Proof.
  intros Hne s3.
  assert (Hsock1 : socketUser (fst (userJoin c2 data (fst (userJoin c1 data s)))) !! c1
                   = Some (user_id data)).
  { cbn. rewrite lookup_insert. case_decide; [reflexivity | apply lookup_insert_eq]. }
  assert (Hs3 : s3 = set_onlineUsers
                       (delete (user_id data)
                          (onlineUsers (fst (userJoin c2 data (fst (userJoin c1 data s))))))
                       (fst (userJoin c2 data (fst (userJoin c1 data s))))).
  { subst s3. unfold disconnect. rewrite Hsock1. unfold truthy.
    assert (String.eqb (user_id data) "" = false) as -> by now apply String.eqb_neq.
    reflexivity. }
  assert (Hgone : onlineUsers s3 !! user_id data = None).
  { rewrite Hs3. cbn [onlineUsers set_onlineUsers]. apply lookup_delete_eq. }
  assert (Hbound : socketUser s3 !! c2 = Some (user_id data)).
  { rewrite Hs3. cbn. apply lookup_insert_eq. }
  assert (Hcur : currentUser c2 s3 = None).
  { unfold currentUser. rewrite Hbound. simpl. exact Hgone. }
  split; [exact Hgone |]. split; [exact Hbound |]. split; [exact Hcur |].
  intros chatroomId message now. now apply chatroomMessage_unresolved.
Qed.

Lemma stale_disconnect_unbinds_live_connection_witness :
  user_id ann <> "" /\
  currentUser "c2" (fst (disconnect "c1" (fst (userJoin "c2" ann (fst (userJoin "c1" ann init))))))
  = None.
Proof.
  assert (H : user_id ann <> "") by discriminate.
  split; [exact H |].
  exact (proj1 (proj2 (proj2 (stale_disconnect_unbinds_live_connection init "c1" "c2" ann H)))).
Defined.


(** ** Room members *)





Lemma indexOf_last uid l :
  uid ∉ l -> indexOf (Some uid) (l ++ [uid]) = Some (length l).
Proof.
  intros Hnot. unfold indexOf. apply findIndex_app_first.
  - apply Forall_forall. intros y Hy. apply String.eqb_neq. intros ->. contradiction.
  - apply String.eqb_refl.
Qed.

(** X14.  An announced user who joins an existing room of which it is not a
    member, and leaves it again, leaves the room directory exactly as it
    was; the count sent to the room on leaving is the old member count.
    Leaving a room that does not exist changes nothing and emits nothing. *)
Theorem join_then_leave_restores (sid k uid : string) (u : user) (room : chatroom)
    (s : state) :
  socketUser s !! sid = Some uid -> onlineUsers s !! uid = Some u ->
  chatrooms s !! k = Some room -> uid ∉ members room ->
  let s1 := fst (joinChatroom sid k s) in
  chatrooms s1 !! k = Some (Chatroom (messages room) (members room ++ [uid])) /\
  chatrooms (fst (leaveChatroom sid k s1)) = chatrooms s /\
  snd (leaveChatroom sid k s1) = [(ToRoom k, chatroomOnline (length (members room)))] /\
  (forall other, chatrooms s !! other = None -> leaveChatroom sid other s = (s, [])).
Proof.
  intros Hsock Huser Hroom Hnot s1.
  assert (Hjoin : chatrooms s1 = <[k := Chatroom (messages room) (members room ++ [uid])]>
                                   (chatrooms s)).
  { subst s1. unfold joinChatroom, currentUser. rewrite Hsock. simpl.
    rewrite Huser, Hroom. simpl. rewrite bool_decide_eq_false_2 by assumption. reflexivity. }
  assert (Hsock1 : socketUser s1 !! sid = Some uid) by exact Hsock.
  split; [now rewrite Hjoin, lookup_insert_eq |].
  unfold leaveChatroom. rewrite Hjoin, lookup_insert_eq, Hsock1.
  cbn [members messages]. rewrite indexOf_last by assumption.
  replace (members room ++ [uid]) with (members room ++ uid :: []) by reflexivity.
  rewrite splice1_middle, app_nil_r. cbn [fst snd chatrooms set_chatrooms].
  split; [| split].
  - rewrite insert_insert_eq. apply insert_id. rewrite Hroom. now destruct room.
  - reflexivity.
  - intros other Hother. now rewrite Hother.
Qed.

(** Bob, announced on [c2], joins Ann's room [r1] and leaves it. *)
Lemma join_then_leave_restores_witness :
  chatrooms (fst (leaveChatroom "c2" "r1"
                    (fst (joinChatroom "c2" "r1" (fst (userJoin "c2" bob annInRooms))))))
  = chatrooms (fst (userJoin "c2" bob annInRooms)).
Proof.
  refine (proj1 (proj2 (join_then_leave_restores "c2" "r1" "u2" (User bob "c2")
                          (Chatroom [] ["u1"]) (fst (userJoin "c2" bob annInRooms))
                          _ _ _ _))).
  - vm_compute. reflexivity.
  - vm_compute. reflexivity.
  - vm_compute. reflexivity.
  - intros H. apply list_elem_of_singleton in H. discriminate H.
Defined.


(** ** Re-announcing *)

Lemma step_leaves_record p i s :
  leavesRecord p [i] s ->
  onlineUsers (fst (step i s)) !! p = onlineUsers s !! p.
Proof.
  intros [Hi _]. destruct_input i; cbn [step].
  - unfold userJoin. cbn [fst onlineUsers set_onlineUsers set_socketUser].
    now apply lookup_insert_ne.
  - unfold publishBubble. now destruct (isPrivate bubbleData).
  - reflexivity.
  - unfold chatroomMessage. now repeat case_match.
  - unfold leaveChatroom. now repeat case_match.
  - unfold friendMessage. now repeat case_match.
  - unfold disconnect. destruct (socketUser s !! sid) as [uid|] eqn:Hsock; [| reflexivity].
    destruct (truthy (Some uid)); [| reflexivity].
    cbn [fst onlineUsers set_onlineUsers]. apply lookup_delete_ne. congruence.
  - destruct (timers s !! k); [| reflexivity]. unfold expireBubble. now case_match.
Qed.

Lemma run_leaves_record p ins s :
  leavesRecord p ins s ->
  onlineUsers (fst (run ins s)) !! p = onlineUsers s !! p.
Proof.
  revert s. induction ins as [|i ins IH]; intros s; [reflexivity |].
  intros [Hi Hrest]. cbn [run].
  pose proof (step_leaves_record p i s (conj Hi I)) as Hstep.
  destruct (step i s) as [s1 out1]. cbn [fst] in *.
  specialize (IH s1 Hrest). destruct (run ins s1) as [s2 out2]. cbn [fst] in *.
  congruence.
Qed.

(** X16.  Announcing a user id that is already announced, from whatever
    connection [c2], leaves the presence count unchanged (the count that is
    broadcast is the old one) and binds the record and the connection to
    each other.  From then on, along any run in which that id is not
    announced again and no connection bound to it disconnects, a direct
    message to that id from any resolved sender is emitted to [c2] and to
    nobody else. *)
Theorem reannounce_rebinds_while_record_stays (s : state) (c2 : string) (data : profile) :
  is_Some (onlineUsers s !! user_id data) ->
  let s1 := fst (userJoin c2 data s) in
  size (onlineUsers s1) = size (onlineUsers s) /\
  (ToAll, onlineCount (size (onlineUsers s))) ∈ snd (userJoin c2 data s) /\
  onlineUsers s1 !! user_id data = Some (User data c2) /\
  socketUser s1 !! c2 = Some (user_id data) /\
  forall ins, leavesRecord (user_id data) ins s1 ->
    let s2 := fst (run ins s1) in
    forall sid message now uid sender,
      socketUser s2 !! sid = Some uid ->
      onlineUsers s2 !! uid = Some sender ->
      snd (friendMessage sid (user_id data) message now s2) =
        [(ToRoom c2,
          friendMessageEv
            (FriendMsg uid (user_id data) (nickname (userData sender))
               (avatar (userData sender)) message now))].
Proof.
  intros [old Hold] s1.
  assert (Hreg1 : onlineUsers s1 = <[user_id data := User data c2]> (onlineUsers s))
    by reflexivity.
  assert (Hsize : size (onlineUsers s1) = size (onlineUsers s)).
  { rewrite Hreg1.
    rewrite <- (insert_delete_id (onlineUsers s) (user_id data) old) at 2 by assumption.
    rewrite <- (insert_delete_eq (onlineUsers s)).
    rewrite !map_size_insert_None by apply lookup_delete_eq. reflexivity. }
  split; [exact Hsize |]. split.
  { rewrite <- Hsize. left. }
  split.
  { now rewrite Hreg1, lookup_insert_eq. }
  split.
  { cbn. apply lookup_insert_eq. }
  intros ins Hins s2 sid message now uid sender Hsock Hsender.
  pose proof (run_leaves_record (user_id data) ins s1 Hins) as Hrec. fold s2 in Hrec.
  destruct (friendMessage_resolved sid (user_id data) message now s2 uid sender
              Hsock Hsender) as (Hout & _).
  cbn zeta in Hout. rewrite Hout, Hrec, Hreg1, lookup_insert_eq. reflexivity.
Qed.

(** Ann, announced on [c1], announces herself again on [c2]; then Bob
    announces himself on [c3], joins a room, and some unannounced connection
    comes and goes: Bob's message to Ann is emitted to [c2]. *)
Lemma reannounce_rebinds_while_record_stays_witness :
  snd (friendMessage "c3" "u1" "hello" 5
         (fst (run [UserJoin "c3" bob; JoinChatroom "c3" "r1"; Disconnect "c9"]
                 (fst (userJoin "c2" ann annOnline)))))
  = [(ToRoom "c2", friendMessageEv (FriendMsg "u2" "u1" "Bob" "bob.png" "hello" 5))].
Proof.
  assert (H : is_Some (onlineUsers annOnline !! user_id ann)).
  { exists (User ann "c1"). vm_compute. reflexivity. }
  refine (proj2 (proj2 (proj2 (proj2
            (reannounce_rebinds_while_record_stays annOnline "c2" ann H))))
            [UserJoin "c3" bob; JoinChatroom "c3" "r1"; Disconnect "c9"] _
            "c3" "hello" 5 "u2" (User bob "c3") _ _).
  - repeat split; [discriminate | vm_compute; discriminate].
  - vm_compute. reflexivity.
  - vm_compute. reflexivity.
Defined.


(** ** Client-chosen identifiers *)

Lemma expire_first bid pre post b s :
  allBubbles s = pre ++ b :: post ->
  Forall (fun y => bubble_id y <> bid) pre ->
  bubble_id b = bid ->
  expireBubble bid s = (set_allBubbles (pre ++ post) s, [(ToAll, bubbleExpired bid)]).
Proof.
  intros Hstore Hpre Hb. unfold expireBubble. rewrite Hstore.
  rewrite findIndex_app_first.
  - now rewrite splice1_middle.
  - eapply Forall_impl; [exact Hpre |]. intros y Hy. simpl. now apply String.eqb_neq.
  - now apply String.eqb_eq.
Qed.

(** X17.  Bubbles are found by the identifier the client chose, and the
    timer removes the first stored bubble that carries it.  When a private
    bubble and, after it, a public bubble are published under one
    identifier, the timer of the public one removes the private one: the
    public bubble stays in the store and the expiry of the shared identifier
    is announced. *)
Theorem timer_removes_earlier_namesake (sid1 sid2 : string) (b1 b2 : bubble) (s : state) :
  Forall (fun y => bubble_id y <> bubble_id b2) (allBubbles s) ->
  bubble_id b1 = bubble_id b2 ->
  isPrivate b1 = true -> isPrivate b2 = false ->
  let r := run [PublishBubble sid1 b1; PublishBubble sid2 b2;
                TimerFires (length (timers s))] s in
  allBubbles (fst r) = allBubbles s ++ [b2] /\
  timers (fst r) = timers s /\
  snd r = [(ToAll, newBubble b1); (ToAll, newBubble b2);
           (ToAll, bubbleExpired (bubble_id b2))].
Proof.
  intros Hfresh Hid Hp1 Hp2 r. subst r.
  cbn [run step]. unfold publishBubble. rewrite Hp1, Hp2.
  cbn [negb fst snd timers allBubbles set_allBubbles set_timers].
  rewrite list_lookup_middle by reflexivity. cbn [timer_bubble].
  replace (splice1 (length (timers s))
             (timers s ++ [Timer (bubble_id b2) (duration b2 * 1000)]))
    with (timers s) by (now rewrite splice1_middle, app_nil_r).
  rewrite (expire_first (bubble_id b2) (allBubbles s) [b2] b1).
  - cbn [fst snd timers allBubbles set_allBubbles set_timers]. repeat split.
  - cbn [allBubbles set_allBubbles set_timers]. now rewrite <- app_assoc.
  - exact Hfresh.
  - exact Hid.
Qed.

(** The private [diary] and a public bubble that reuses its id. *)
Lemma timer_removes_earlier_namesake_witness :
  allBubbles (fst (run [PublishBubble "c1" diary; PublishBubble "c2" (withId "b2" rain);
                        TimerFires 0] init))
  = [withId "b2" rain].
Proof.
  refine (proj1 (timer_removes_earlier_namesake "c1" "c2" diary (withId "b2" rain) init
                   _ _ _ _)); try reflexivity.
  constructor.
Defined.

(** ** Histories and logs *)

Lemma step_histories i s :
  (forall k room, chatrooms s !! k = Some room ->
     exists room', chatrooms (fst (step i s)) !! k = Some room' /\
                   messages room `prefix_of` messages room') /\
  (forall key log, friendChats s !! key = Some log ->
     exists log', friendChats (fst (step i s)) !! key = Some log' /\
                  log `prefix_of` log').
Proof.
  assert (Hrooms : forall k room, chatrooms s !! k = Some room ->
            exists room', chatrooms s !! k = Some room' /\
                          messages room `prefix_of` messages room').
  { intros k room H. now exists room. }
  assert (Hlogs : forall key log, friendChats s !! key = Some log ->
            exists log', friendChats s !! key = Some log' /\ log `prefix_of` log').
  { intros key log H. now exists log. }
  destruct_input i; cbn [step].
  - split; [exact Hrooms | exact Hlogs].
  - unfold publishBubble. destruct (isPrivate bubbleData); split; assumption.
  - split; [| exact Hlogs]. unfold joinChatroom. cbn [fst chatrooms set_chatrooms].
    intros k room Hroom. destruct (decide (chatroomId = k)) as [->|Hne].
    + rewrite lookup_insert_eq, Hroom. eexists. split; [reflexivity |].
      cbn [default]. now repeat case_match.
    + rewrite lookup_insert_ne by assumption. now exists room.
  - split.
    + unfold chatroomMessage. destruct (currentUser sid s); [| exact Hrooms].
      destruct (chatrooms s !! chatroomId) as [room0|] eqn:Hroom0; [| exact Hrooms].
      cbn [fst chatrooms set_chatrooms]. intros k room Hroom.
      destruct (decide (chatroomId = k)) as [->|Hne].
      * rewrite lookup_insert_eq. eexists. split; [reflexivity |].
        rewrite Hroom0 in Hroom. injection Hroom as <-. cbn [messages].
        now apply prefix_app_r.
      * rewrite lookup_insert_ne by assumption. now exists room.
    + unfold chatroomMessage. repeat case_match; exact Hlogs.
  - split.
    + unfold leaveChatroom.
      destruct (chatrooms s !! chatroomId) as [room0|] eqn:Hroom0; [| exact Hrooms].
      cbn [fst chatrooms set_chatrooms]. intros k room Hroom.
      destruct (decide (chatroomId = k)) as [->|Hne].
      * rewrite lookup_insert_eq. eexists. split; [reflexivity |].
        rewrite Hroom0 in Hroom. now injection Hroom as <-.
      * rewrite lookup_insert_ne by assumption. now exists room.
    + unfold leaveChatroom. repeat case_match; exact Hlogs.
  - split.
    + unfold friendMessage. repeat case_match; exact Hrooms.
    + unfold friendMessage. destruct (currentUser sid s); [| exact Hlogs].
      destruct (socketUser s !! sid) as [uid|]; [| exact Hlogs].
      assert (Hins : forall key log, friendChats s !! key = Some log ->
                exists log',
                  <[chatKey uid friendId :=
                      default [] (friendChats s !! chatKey uid friendId) ++
                      [FriendMsg uid friendId (nickname (userData u)) (avatar (userData u))
                         message now]]> (friendChats s) !! key = Some log' /\
                  log `prefix_of` log').
      { intros key log Hlog. destruct (decide (chatKey uid friendId = key)) as [<-|Hne].
        - rewrite lookup_insert_eq, Hlog. eexists. split; [reflexivity |].
          now apply prefix_app_r.
        - rewrite lookup_insert_ne by assumption. now exists log. }
      destruct (onlineUsers s !! friendId); exact Hins.
  - unfold disconnect. repeat case_match; split; assumption.
  - destruct (timers s !! k); [| split; assumption].
    unfold expireBubble. case_match; split; assumption.
Qed.

(** X18.  Nothing is ever taken out of a room history or of a friend-chat
    log, and no room and no log is ever dropped: after any run, every room
    and every log that existed is still there, and what it held before is
    the beginning of what it holds now. *)
Theorem histories_are_append_only (ins : list input) (s : state) :
  (forall k room, chatrooms s !! k = Some room ->
     exists room', chatrooms (fst (run ins s)) !! k = Some room' /\
                   messages room `prefix_of` messages room') /\
  (forall key log, friendChats s !! key = Some log ->
     exists log', friendChats (fst (run ins s)) !! key = Some log' /\
                  log `prefix_of` log').
Proof.
  revert s. induction ins as [|i ins IH]; intros s.
  - split; [intros k room H; now exists room | intros key log H; now exists log].
  - cbn [run]. destruct (step_histories i s) as [Hr Hl].
    destruct (step i s) as [s1 out1]. cbn [fst] in *.
    destruct (IH s1) as [Hr' Hl']. destruct (run ins s1) as [s2 out2]. cbn [fst] in *.
    split.
    + intros k room Hroom. destruct (Hr k room Hroom) as (room1 & Hroom1 & Hpre1).
      destruct (Hr' k room1 Hroom1) as (room2 & Hroom2 & Hpre2).
      exists room2. split; [assumption | now transitivity (messages room1)].
    + intros key log Hlog. destruct (Hl key log Hlog) as (log1 & Hlog1 & Hpre1).
      destruct (Hl' key log1 Hlog1) as (log2 & Hlog2 & Hpre2).
      exists log2. split; [assumption | now transitivity log1].
Qed.

Lemma histories_are_append_only_witness :
  exists room',
    chatrooms (fst (run (postAll "c1" "r1" hundredAndOne ++ [Disconnect "c1"]) annInRooms))
      !! "r1" = Some room' /\
    [] `prefix_of` messages room'.
Proof.
  apply (proj1 (histories_are_append_only
                  (postAll "c1" "r1" hundredAndOne ++ [Disconnect "c1"]) annInRooms)
           "r1" (Chatroom [] ["u1"])).
  vm_compute. reflexivity.
Defined.

End Part000Extra.
